(** * OCR service: a shallow embedding of [ocr-service/app.py]

    The development follows the layout of the Python module:
    - [PyStr]   : the [str] methods the module relies on
                  ([upper], [strip], [split], [join], [in]);
    - [Regex]   : a backtracking matcher for the fragment of [re] used by
                  the field patterns, with [re.search] and [group(1)];
    - [Fields]  : [extract_structured_fields];
    - [Ocr]     : [extract_text_from_image] and [extract_text_from_pdf],
                  run in a small trace-and-error monad;
    - [Api]     : the [POST /ocr] handler [extract_text].

    Texts are sequences of characters over the ASCII range, on which
    Python's Unicode-aware [str.upper], [str.isspace], [\d], [\w] and [\s]
    agree with the definitions below.  Python floats that are the result of
    [float(decimal string)] or of an integer division are represented by the
    exact rational they round. *)

From Stdlib Require Import List Ascii String ZArith QArith Lia Bool Arith.
From stdpp Require Import gmap strings.
Import ListNotations.

#[local] Open Scope Z_scope.
#[local] Open Scope nat_scope.
#[local] Open Scope list_scope.

(** A Python [str]. *)
Abbreviation text := (list ascii).

(** Literal texts are written as Rocq strings. *)
Definition s2l (s : string) : text := list_ascii_of_string s.

(* ------------------------------------------------------------------ *)
(** ** Python [str] methods *)
(* ------------------------------------------------------------------ *)

Module PyStr.

Definition code (c : ascii) : nat := nat_of_ascii c.

Definition between (lo hi : nat) (c : ascii) : bool :=
  (lo <=? code c) && (code c <=? hi).

(** [str.isspace] on one character: TAB, LF, VT, FF, CR, FS, GS, RS, US
    and SPACE. *)
Definition is_space (c : ascii) : bool :=
  between 9 13 c || between 28 32 c.

Definition is_digit (c : ascii) : bool := between 48 57 c.
Definition is_lower (c : ascii) : bool := between 97 122 c.
Definition is_upper_letter (c : ascii) : bool := between 65 90 c.

(** [\w]: letters, digits and the underscore. *)
Definition is_word (c : ascii) : bool :=
  is_digit c || is_lower c || is_upper_letter c || (code c =? 95).

Definition upper_char (c : ascii) : ascii :=
  if is_lower c then ascii_of_nat (code c - 32) else c.

(** [s.upper()] *)
Definition upper (s : text) : text := map upper_char s.

Definition newline : ascii := ascii_of_nat 10.

(** [s.lstrip()], [s.rstrip()] and [s.strip()] *)
Fixpoint lstrip (s : text) : text :=
  match s with
  | c :: s' => if is_space c then lstrip s' else s
  | [] => []
  end.

Definition rstrip (s : text) : text := rev (lstrip (rev s)).

Definition strip (s : text) : text := rstrip (lstrip s).

(** The truth value of a Python string. *)
Definition truthy (s : text) : bool :=
  match s with [] => false | _ => true end.

(** [s.split(sep)] for a one-character separator: never the empty list. *)
Fixpoint split_on (sep : ascii) (s : text) : list text :=
  match s with
  | [] => [[]]
  | c :: s' =>
      if Ascii.eqb c sep then [] :: split_on sep s'
      else match split_on sep s' with
           | w :: ws => (c :: w) :: ws
           | [] => [[c]]
           end
  end.

(** [s.split()]: the maximal runs of non-whitespace characters.  [cur] is
    the run being read, in reverse. *)
Fixpoint split_ws_aux (cur : text) (s : text) : list text :=
  match s with
  | [] => match cur with [] => [] | _ => [rev cur] end
  | c :: s' =>
      if is_space c
      then match cur with
           | [] => split_ws_aux [] s'
           | _ => rev cur :: split_ws_aux [] s'
           end
      else split_ws_aux (c :: cur) s'
  end.

Definition split_ws (s : text) : list text := split_ws_aux [] s.

(** [sep.join(parts)] *)
Fixpoint join (sep : text) (parts : list text) : text :=
  match parts with
  | [] => []
  | [p] => p
  | p :: ps => p ++ sep ++ join sep ps
  end.

Fixpoint starts_with (p s : text) : bool :=
  match p, s with
  | [], _ => true
  | a :: p', b :: s' => Ascii.eqb a b && starts_with p' s'
  | _ :: _, [] => false
  end.

(** [p in s] *)
Fixpoint contains (p s : text) : bool :=
  starts_with p s ||
  match s with
  | [] => false
  | _ :: s' => contains p s'
  end.

(** [[line.strip() for line in s.split('\n') if line.strip()]] *)
Definition nonempty_lines (s : text) : list text :=
  map strip (List.filter (fun l => truthy (strip l)) (split_on newline s)).

(** [s[a:b]] for [0 <= a <= b]. *)
Definition slice (a b : nat) (s : text) : text :=
  firstn (b - a) (skipn a s).

(** [s.replace(',', '')] *)
Definition remove_commas (s : text) : text :=
  List.filter (fun c => negb (Ascii.eqb c ","%char)) s.

End PyStr.

(* ------------------------------------------------------------------ *)
(** ** The fragment of Python's [re] used by the field patterns *)
(* ------------------------------------------------------------------ *)

Module Regex.
Import PyStr.

(** Syntax.  [Star true r] is the greedy [r*], [Star false r] the lazy
    [r*?]; [Grp] is the (single) capturing group; [Bol] is [^] without the
    MULTILINE flag. *)
Inductive re : Type :=
| Eps
| Cls (p : ascii -> bool)
| Bol
| Seq (a b : re)
| Alt (a b : re)
| Star (greedy : bool) (a : re)
| Grp (a : re).

(** Matcher state: the current index, the unread input and the span of
    group 1 when it has been closed. *)
Record mstate := MState {
  pos : nat;
  rest : text;
  cap : option (nat * nat)
}.

Definition orelse {A} (x y : option A) : option A :=
  match x with Some _ => x | None => y end.

(** Backtracking matcher in continuation-passing style: alternatives are
    tried left to right, a greedy star tries one more iteration before
    leaving the loop and a lazy one leaves first.  An iteration that reads
    nothing is not repeated. *)
Fixpoint run (r : re) (st : mstate) (k : mstate -> option mstate)
  {struct r} : option mstate :=
  match r with
  | Eps => k st
  | Cls p =>
      match rest st with
      | c :: s' => if p c then k (MState (S (pos st)) s' (cap st)) else None
      | [] => None
      end
  | Bol => if pos st =? 0 then k st else None
  | Seq a b => run a st (fun st' => run b st' k)
  | Alt a b => orelse (run a st k) (run b st k)
  | Star greedy a =>
      (fix loop (fuel : nat) (st0 : mstate) {struct fuel} : option mstate :=
         match fuel with
         | O => k st0
         | S fuel' =>
             let again :=
               run a st0 (fun st' =>
                 if pos st0 <? pos st' then loop fuel' st' else None) in
             if greedy then orelse again (k st0) else orelse (k st0) again
         end) (S (List.length (rest st))) st
  | Grp a =>
      run a st (fun st' => k (MState (pos st') (rest st')
                                     (Some (pos st, pos st'))))
  end.

(** The result of a successful [re.search]: the span of the match and the
    span of group 1. *)
Record rmatch := RMatch {
  m_start : nat;
  m_end : nat;
  m_group1 : option (nat * nat)
}.

Fixpoint search_from (r : re) (i : nat) (s : text) : option rmatch :=
  match run r (MState i s None) Some with
  | Some st => Some (RMatch i (pos st) (cap st))
  | None =>
      match s with
      | [] => None
      | _ :: s' => search_from r (S i) s'
      end
  end.

(** [re.search(r, s)]: the leftmost match. *)
Definition search (r : re) (s : text) : option rmatch := search_from r 0 s.

(** [match.group(1)] on the subject [s]; every pattern below has a group 1
    that takes part in every match. *)
Definition group1 (s : text) (m : rmatch) : text :=
  match m_group1 m with
  | Some (a, b) => slice a b s
  | None => []
  end.

(** Derived forms. *)
Definition chr (c : ascii) : re := Cls (Ascii.eqb c).
Definition lit (s : string) : re :=
  fold_right (fun c r => Seq (chr c) r) Eps (s2l s).
Definition opt (a : re) : re := Alt a Eps.
Definition plus (a : re) : re := Seq a (Star true a).
Definition plus_lazy (a : re) : re := Seq a (Star false a).
Definition star (a : re) : re := Star true a.
Fixpoint rep (n : nat) (a : re) : re :=
  match n with O => Eps | S n' => Seq a (rep n' a) end.
(** [a{0,n}], greedy *)
Fixpoint upto (n : nat) (a : re) : re :=
  match n with O => Eps | S n' => opt (Seq a (upto n' a)) end.
(** [a{lo,hi}] *)
Definition rng (lo hi : nat) (a : re) : re := Seq (rep lo a) (upto (hi - lo) a).
Definition alts (l : list re) : re :=
  match l with
  | [] => Eps
  | a :: l' => fold_left Alt l' a
  end.
Definition seqs (l : list re) : re := fold_right Seq Eps l.

Definition d : re := Cls is_digit.            (* \d *)
Definition w : re := Cls is_word.             (* \w *)
Definition sp : re := Cls is_space.           (* \s *)
Definition dot : re :=                        (* . *)
  Cls (fun c => negb (Ascii.eqb c newline)).
Definition one_of (s : string) : ascii -> bool :=
  fun c => existsb (Ascii.eqb c) (s2l s).

End Regex.

(* ------------------------------------------------------------------ *)
(** ** [extract_structured_fields] *)
(* ------------------------------------------------------------------ *)

Module Fields.
Import PyStr Regex.

(** [class ExtractedFields]: every member defaults to [None]. *)
Record ExtractedFields := mkFields {
  total : option Q;
  title : option text;
  date : option text;
  invoice_number : option text;
  vendor : option text
}.

(** [(\d+(?:,\d{3})*(?:\.\d{2})?)] *)
Definition amount : re :=
  Grp (seqs [plus d; star (Seq (chr ",") (rep 3 d));
             opt (Seq (chr ".") (rep 2 d))]).

(** [KEY[:\s]*\$?(amount)] *)
Definition labelled (key : string) : re :=
  seqs [lit key; star (Cls (fun c => Ascii.eqb c ":" || is_space c));
        opt (chr "$"); amount].

Definition total_patterns : list re :=
  [ labelled "TOTAL";
    labelled "AMOUNT";
    labelled "SUM";
    labelled "BALANCE";
    seqs [lit "USD"; star sp; amount];
    seqs [opt (chr "$"); amount; star sp; lit "USD"];
    seqs [lit "GRAND"; star sp; labelled "TOTAL"];
    labelled "SUBTOTAL" ].

(** The value of a run of decimal digits. *)
Fixpoint digits_value (acc : Z) (s : text) : option Z :=
  match s with
  | [] => Some acc
  | c :: s' =>
      if is_digit c
      then digits_value (10 * acc + Z.of_nat (code c - 48))%Z s'
      else None
  end.

(** [float(s)] on the strings [amount] can capture once the commas are
    removed: digits with an optional fractional part.  [None] stands for
    [ValueError]. *)
Definition float_of_str (s : text) : option Q :=
  match split_on "." s with
  | [i] =>
      if truthy i then option_map inject_Z (digits_value 0 i) else None
  | [i; f] =>
      if truthy i || truthy f then
        match digits_value 0 i, digits_value 0 f with
        | Some a, Some b =>
            let scale := (10 ^ Z.of_nat (List.length f))%Z in
            Some (Qred (Qmake (a * scale + b) (Z.to_pos scale)))
        | _, _ => None
        end
      else None
  | _ => None
  end.

(** The loop over [total_patterns]: the first pattern that matches and
    whose capture converts sets the total. *)
Fixpoint find_total (ps : list re) (text_upper : text) : option Q :=
  match ps with
  | [] => None
  | p :: ps' =>
      match search p text_upper with
      | Some m =>
          match float_of_str (remove_commas (group1 text_upper m)) with
          | Some v => Some v
          | None => find_total ps' text_upper
          end
      | None => find_total ps' text_upper
      end
  end.

Definition month : re :=
  alts (map lit ["JAN"; "FEB"; "MAR"; "APR"; "MAY"; "JUN";
                 "JUL"; "AUG"; "SEP"; "OCT"; "NOV"; "DEC"]%string).

Definition slash_dash : re := Cls (one_of "/-").

Definition date_patterns : list re :=
  [ Grp (seqs [rng 1 2 d; slash_dash; rng 1 2 d; slash_dash; rng 2 4 d]);
    Grp (seqs [rep 4 d; slash_dash; rng 1 2 d; slash_dash; rng 1 2 d]);
    Grp (seqs [rng 1 2 d; plus sp; month; plus sp; rng 2 4 d]);
    Grp (seqs [month; plus sp; rng 1 2 d; opt (chr ","); plus sp;
               rng 2 4 d]) ].

(** The loop over [date_patterns]. *)
Fixpoint find_date (ps : list re) (text_upper : text) : option text :=
  match ps with
  | [] => None
  | p :: ps' =>
      match search p text_upper with
      | Some m => Some (group1 text_upper m)
      | None => find_date ps' text_upper
      end
  end.

(** [KEY[:\s#]*] followed by the group [\w+[-/]?\w*] *)
Definition numbered (key : re) : re :=
  seqs [key;
        star (Cls (fun c => Ascii.eqb c ":" || is_space c || Ascii.eqb c "#"));
        Grp (seqs [plus w; opt (Cls (one_of "-/")); star w])].

Definition invoice_patterns : list re :=
  [ numbered (lit "INVOICE");
    numbered (lit "BILL");
    numbered (lit "RECEIPT");
    numbered (lit "ORDER");
    numbered (Seq (lit "REF") (opt (lit "ERENCE")));
    numbered (Seq (lit "ACC") (opt (lit "OUNT"))) ].

(** The loop over [invoice_patterns]: a capture of at most two characters
    does not stop the search. *)
Fixpoint find_invoice (ps : list re) (text_upper : text) : option text :=
  match ps with
  | [] => None
  | p :: ps' =>
      match search p text_upper with
      | Some m =>
          if 2 <? List.length (group1 text_upper m)
          then Some (group1 text_upper m)
          else find_invoice ps' text_upper
      | None => find_invoice ps' text_upper
      end
  end.

(** [KEY:\s*(.+)] *)
Definition after (key : string) : re :=
  seqs [lit key; chr ":"; star sp; Grp (plus dot)].

Definition vendor_patterns : list re :=
  [ seqs [Bol; Grp (plus_lazy dot); plus sp;
          alts (map lit ["INC"; "LLC"; "CORP"; "CORPORATION"; "CO";
                         "COMPANY"; "LTD"; "LIMITED"]%string)];
    after "FROM";
    after "VENDOR";
    after "SUPPLIER";
    after "MERCHANT" ].

(** The inner loop over [vendor_patterns] for one uppercased line. *)
Fixpoint vendor_of_line (ps : list re) (line_upper : text) : option text :=
  match ps with
  | [] => None
  | p :: ps' =>
      match search p line_upper with
      | Some m =>
          if 2 <? List.length (strip (group1 line_upper m))
          then Some (strip (group1 line_upper m))
          else vendor_of_line ps' line_upper
      | None => vendor_of_line ps' line_upper
      end
  end.

(** The outer loop over [lines[:5]]; it stops at the first line that set
    the vendor. *)
Fixpoint find_vendor (ls : list text) : option text :=
  match ls with
  | [] => None
  | line :: ls' =>
      match vendor_of_line vendor_patterns (upper line) with
      | Some v => Some v
      | None => find_vendor ls'
      end
  end.

Definition title_keywords : list text :=
  map s2l ["INVOICE"; "BILL"; "RECEIPT"; "STATEMENT"]%string.

(** [any(keyword in line_upper for keyword in [...])] *)
Definition has_keyword (line_upper : text) : bool :=
  existsb (fun kw => contains kw line_upper) title_keywords.

Definition find_title (lines : list text) : option text :=
  match lines with
  | [] => None
  | l0 :: ls =>
      if has_keyword (upper l0) then Some (strip l0)
      else match ls with
           | l1 :: _ => if has_keyword (upper l1) then Some (strip l1) else None
           | [] => None
           end
  end.

Definition extract_structured_fields (t : text) : ExtractedFields :=
  let text_upper := upper t in
  let lines := nonempty_lines t in
  {| total := find_total total_patterns text_upper;
     title := find_title lines;
     date := find_date date_patterns text_upper;
     invoice_number := find_invoice invoice_patterns text_upper;
     vendor := find_vendor (firstn 5 lines) |}.

End Fields.

(* ------------------------------------------------------------------ *)
(** ** Exceptions, temporary files and the trace of a request *)
(* ------------------------------------------------------------------ *)

Module Effects.

(** What the code raises.  [EngineError] is any exception coming out of
    PIL, pytesseract or PyMuPDF; the [detail] of an [HTTPException] is kept
    as data, one constructor per message format. *)
Inductive exc : Type :=
| EngineError (msg : string)
| HTTPException (status_code : nat) (detail : http_detail)
with http_detail : Type :=
| FileTooLarge (limit : Z)
| UnsupportedFileType (content_type : option string)
| OcrProcessingFailed (cause : exc)
| PdfProcessingFailed (cause : exc).

(** Temporary files: the stored upload and [temp_page_<n>.png]. *)
Inductive tmp_file : Type :=
| TmpUpload
| TmpPage (page_num : nat).

Definition tmp_eqb (a b : tmp_file) : bool :=
  match a, b with
  | TmpUpload, TmpUpload => true
  | TmpPage n, TmpPage m => n =? m
  | _, _ => false
  end.

(** Observable steps of a request, in program order. *)
Inductive event : Type :=
| EvTempCreate                 (* tempfile.NamedTemporaryFile(delete=False) *)
| EvUploadRead                 (* await file.read() *)
| EvTempWrite                  (* temp_file.write(content) *)
| EvPdfOpen                    (* fitz.open(pdf_path) *)
| EvPageSave (page_num : nat)  (* pix.save(img_path) *)
| EvOcr (f : tmp_file)         (* Image.open and pytesseract on a file *)
| EvUnlink (f : tmp_file).     (* path.unlink() *)

(** The part of the outside world a request changes: the temporary files
    that exist and the steps taken so far. *)
Record world := World {
  live : list tmp_file;
  log : list event
}.

Definition empty_world : world := World [] [].

(** Computations that change the world and either raise or return. *)
Definition M (A : Type) : Type := world -> world * (exc + A).

Definition ret {A} (a : A) : M A := fun w => (w, inr a).
Definition raise {A} (e : exc) : M A := fun w => (w, inl e).
Definition bind {A B} (m : M A) (k : A -> M B) : M B :=
  fun w =>
    match m w with
    | (w', inr a) => k a w'
    | (w', inl e) => (w', inl e)
    end.

Definition emit (e : event) : M unit :=
  fun w => (World (live w) (log w ++ [e]), inr tt).

(** A file comes into existence. *)
Definition create (f : tmp_file) : M unit :=
  fun w => (World (f :: live w) (log w), inr tt).

(** [if path.exists(): path.unlink()] *)
Definition unlink_if_exists (f : tmp_file) : M unit :=
  fun w =>
    if existsb (tmp_eqb f) (live w)
    then (World (List.filter (fun g => negb (tmp_eqb f g)) (live w))
                (log w ++ [EvUnlink f]), inr tt)
    else (w, inr tt).

(** [try: m finally: cleanup] *)
Definition try_finally {A} (m : M A) (cleanup : M unit) : M A :=
  fun w =>
    match m w with
    | (w', r) =>
        match cleanup w' with
        | (w'', inr _) => (w'', r)
        | (w'', inl e) => (w'', inl e)
        end
    end.

(** [try: m except Exception as e: raise h(e)] *)
Definition try_except {A} (m : M A) (h : exc -> exc) : M A :=
  fun w =>
    match m w with
    | (w', inl e) => (w', inl (h e))
    | (w', inr a) => (w', inr a)
    end.

End Effects.

Declare Scope monad_scope.
Notation "'do' x <- m ; k" := (Effects.bind m (fun x => k))
  (at level 10, x pattern, m at level 100, k at level 200) : monad_scope.
Notation "m ;; k" := (Effects.bind m (fun _ => k))
  (at level 100, k at level 200, right associativity) : monad_scope.
#[local] Open Scope monad_scope.

(* ------------------------------------------------------------------ *)
(** ** [extract_text_from_image] and [extract_text_from_pdf] *)
(* ------------------------------------------------------------------ *)

Module Ocr.
Import PyStr Effects.

(** Values stored in the metadata dictionaries. *)
Inductive pyval : Type :=
| PNone
| PInt (n : Z)
| PBool (b : bool)
| PStr (s : string)
| PLines (ls : list text)
| PSize (width height : Z).

(** An image file as PIL and Tesseract see it: either one of them raises,
    or [image_to_string] gives [ocr_text] and [image_to_data] the
    confidences [int(conf)], one per entry. *)
Record ocr_data := OcrData {
  ocr_text : text;
  ocr_conf : list Z
}.

Record image_file := ImageFile {
  img_ocr : string + ocr_data;
  img_st_size : Z;
  img_format : option string;
  img_size : Z * Z
}.

(** A PDF page: its embedded text ([page.get_text()]) and the image of
    its pixmap once saved. *)
Record page := Page {
  page_text : text;
  page_image : image_file
}.

(** A PDF file as PyMuPDF sees it: [fitz.open] raises or gives the
    pages.  Loading a page, reading its text and saving its pixmap are
    taken not to raise once the document is open. *)
Record pdf_file := PdfFile {
  pdf_doc : string + list page;
  pdf_st_size : Z
}.

(** [len(s.split())] *)
Definition word_count_of (s : text) : Z := Z.of_nat (List.length (split_ws s)).

Definition sumZ (l : list Z) : Z := fold_right Z.add 0%Z l.

(** [confidences = [int(conf) for conf in ocr_data['conf'] if int(conf) > 0]]
    and [sum(confidences) / len(confidences) if confidences else 0.0] *)
Definition confidences (conf : list Z) : list Z :=
  List.filter (fun c => (0 <? c)%Z) conf.

Definition avg_confidence (conf : list Z) : Q :=
  match confidences conf with
  | [] => 0%Q
  | cs => Qmake (sumZ cs) (Pos.of_nat (List.length cs))
  end.

Definition py_format (f : option string) : pyval :=
  match f with Some s => PStr s | None => PNone end.

(** The [metadata] dictionary of [extract_text_from_image]. *)
Definition image_metadata (img : image_file) (text : text)
  : gmap string pyval :=
  let lines := nonempty_lines text in
  list_to_map
    [ ("total_lines"%string, PInt (Z.of_nat (List.length lines)));
      ("file_size"%string, PInt (img_st_size img));
      ("image_format"%string, py_format (img_format img));
      ("image_size"%string, PSize (fst (img_size img)) (snd (img_size img)));
      ("word_count"%string, PInt (word_count_of text));
      ("detected_lines"%string, PLines (firstn 10 lines)) ].

Definition extract_text_from_image (path : tmp_file) (img : image_file)
  : M (text * Q * gmap string pyval) :=
  try_except
    (emit (EvOcr path) ;;
     match img_ocr img with
     | inl msg => raise (EngineError msg)
     | inr data =>
         let text := ocr_text data in
         let avg_confidence := avg_confidence (ocr_conf data) in
         ret (text, avg_confidence, image_metadata img text)
     end)
    (fun e => HTTPException 500 (OcrProcessingFailed e)).

(** The first loop of [extract_text_from_pdf]: the pages whose text is
    not blank, in page order, and the running word count. *)
Fixpoint digital_pass (pages : list page) (text_parts : list text)
  (total_words : Z) : list text * Z :=
  match pages with
  | [] => (text_parts, total_words)
  | p :: pages' =>
      if truthy (strip (page_text p))
      then digital_pass pages' (text_parts ++ [page_text p])
                        (total_words + word_count_of (page_text p))%Z
      else digital_pass pages' text_parts total_words
  end.

(** The fallback loop over [range(min(len(doc), 5))]; [pages] are the
    pages still to visit and [page_num] the index of the first of them. *)
Fixpoint ocr_pass (page_num : nat) (pages : list page)
  (text_parts : list text) (total_words : Z) : M (list text * Z) :=
  match pages with
  | [] => ret (text_parts, total_words)
  | p :: pages' =>
      let img_path := TmpPage page_num in
      emit (EvPageSave page_num) ;;
      create img_path ;;
      do r <- try_finally
                (do (page_text, _, _) <-
                      extract_text_from_image img_path (page_image p);
                 if truthy (strip page_text)
                 then ret (text_parts ++ [page_text],
                           (total_words + word_count_of page_text)%Z)
                 else ret (text_parts, total_words))
                (unlink_if_exists img_path);
      ocr_pass (S page_num) pages' (fst r) (snd r)
  end.

Definition double_newline : text := [newline; newline].

(** A PyMuPDF document: its pages, and whether [close] was called. *)
Record document := Document {
  doc_pages : list page;
  is_closed : bool
}.

(** [doc.close()] *)
Definition doc_close (doc : document) : document :=
  Document (doc_pages doc) true.

(** [len(doc)], the page count; on a closed document PyMuPDF raises
    [ValueError("document closed")]. *)
Definition doc_len (doc : document) : M nat :=
  if is_closed doc
  then raise (EngineError "document closed")
  else ret (List.length (doc_pages doc)).

(** The [metadata] dictionary of [extract_text_from_pdf], [total_pages]
    being the value of [len(doc)]. *)
Definition pdf_metadata (pdf : pdf_file) (total_pages : nat) (full_text : text)
  (total_words : Z) (used_ocr : bool) : gmap string pyval :=
  let lines := nonempty_lines full_text in
  list_to_map
    [ ("total_pages"%string, PInt (Z.of_nat total_pages));
      ("total_words"%string, PInt total_words);
      ("file_size"%string, PInt (pdf_st_size pdf));
      ("has_text"%string, PBool (truthy (strip full_text)));
      ("extracted_lines"%string, PInt (Z.of_nat (List.length lines)));
      ("used_ocr"%string, PBool used_ocr);
      ("detected_lines"%string, PLines (firstn 10 lines)) ].

(** The document is closed before the metadata are built, and the first
    entry of the dictionary asks the closed document for its length. *)
Definition extract_text_from_pdf (pdf : pdf_file)
  : M (text * Q * gmap string pyval) :=
  try_except
    (emit EvPdfOpen ;;
     match pdf_doc pdf with
     | inl msg => raise (EngineError msg)
     | inr pages =>
         let doc := Document pages false in
         do n <- doc_len doc;
         let '(text_parts, total_words) :=
           digital_pass (firstn n (doc_pages doc)) [] 0%Z in
         let full_text := join double_newline text_parts in
         do (used_ocr, full_text, total_words) <-
           (if truthy (strip full_text)
            then ret (false, full_text, total_words)
            else
              do n <- doc_len doc;
              do (text_parts, total_words) <-
                ocr_pass 0 (firstn (Nat.min n 5) (doc_pages doc))
                         text_parts total_words;
              ret (true, join double_newline text_parts, total_words));
         let doc := doc_close doc in
         let confidence := if used_ocr : bool then (8 # 10)%Q else 1%Q in
         do total_pages <- doc_len doc;
         ret (full_text, confidence,
              pdf_metadata pdf total_pages full_text total_words used_ocr)
     end)
    (fun e => HTTPException 500 (PdfProcessingFailed e)).

End Ocr.

(* ------------------------------------------------------------------ *)
(** ** The [POST /ocr] handler *)
(* ------------------------------------------------------------------ *)

Module Api.
Import PyStr Effects Ocr Fields.

Definition ALLOWED_FILE_TYPES : gset string :=
  {[ "image/jpeg"; "image/jpg"; "image/png"; "image/bmp"; "image/tiff";
     "application/pdf" ]}%string.

(** [content_type not in ALLOWED_FILE_TYPES] is true of [None]. *)
Definition allowed (content_type : option string) : bool :=
  match content_type with
  | Some ct => bool_decide (ct ∈ ALLOWED_FILE_TYPES)
  | None => false
  end.

(** [class OCRMetadata] *)
Record OCRMetadata := mkMetadata {
  original_filename : option string;
  content_type : option string;
  file_size : option Z;
  file_id : option string;
  processing_time_ms : option Q;
  total_pages : option Z;
  confidence : option Q;
  word_count : option Z;
  detected_lines : option (list text)
}.

(** [class OCRResponse] *)
Record OCRResponse := mkResponse {
  success : bool;
  extracted_text : text;
  parsed_fields : ExtractedFields;
  metadata : OCRMetadata
}.

(** [class UploadFile], with the payload [await file.read()] returns.
    The suffix of the temporary file, taken from the file name, plays no
    part in what follows and is left out. *)
Record UploadFile := mkUpload {
  up_filename : option string;
  up_content_type : option string;
  up_size : option Z;
  up_content : list Byte.byte
}.

(** The collaborators: what PIL with Tesseract, and PyMuPDF, make of a
    stored payload. *)
Record Engines := mkEngines {
  as_image : list Byte.byte -> image_file;
  as_pdf : list Byte.byte -> pdf_file
}.

(** What the request reads from its environment: [MAX_FILE_SIZE], the
    value of [uuid.uuid4()] and the two readings of [time.time()]. *)
Record Env := mkEnv {
  MAX_FILE_SIZE : Z;
  uuid4 : string;
  time_start : Q;
  time_end : Q
}.

(** [d.get(key)] read into an [Optional[int]] or [Optional[List[str]]]
    member. *)
Definition get_int (d : gmap string pyval) (key : string) : option Z :=
  match d !! key with
  | Some (PInt n) => Some n
  | _ => None
  end.

Definition get_lines (d : gmap string pyval) (key : string)
  : option (list text) :=
  match d !! key with
  | Some (PLines ls) => Some ls
  | _ => None
  end.

(** [file.size and file.size > MAX_FILE_SIZE] *)
Definition declared_too_large (env : Env) (file : UploadFile) : bool :=
  match up_size file with
  | Some n => negb (n =? 0)%Z && (MAX_FILE_SIZE env <? n)%Z
  | None => false
  end.

Definition content_len (file : UploadFile) : Z :=
  Z.of_nat (List.length (up_content file)).

(** The [with tempfile.NamedTemporaryFile(...)] block.  While it runs
    [temp_path] is still [None]. *)
Definition store_upload (env : Env) (file : UploadFile) : M unit :=
  emit EvTempCreate ;;
  create TmpUpload ;;
  emit EvUploadRead ;;
  if (MAX_FILE_SIZE env <? content_len file)%Z
  then raise (HTTPException 413 (FileTooLarge (MAX_FILE_SIZE env)))
  else emit EvTempWrite.

(** The [OCRMetadata(...)] and [OCRResponse(...)] built from what a
    pipeline returned. *)
Definition build_response (env : Env) (file : UploadFile)
  (extracted_text : text) (confidence : Q)
  (processing_metadata : gmap string pyval) : OCRResponse :=
  let parsed_fields := extract_structured_fields extracted_text in
  let processing_time_ms := ((time_end env - time_start env) * 1000)%Q in
  let metadata :=
    {| original_filename := up_filename file;
       content_type := up_content_type file;
       file_size := Some (content_len file);
       file_id := Some (uuid4 env);
       processing_time_ms := Some processing_time_ms;
       total_pages := get_int processing_metadata "total_pages";
       confidence := Some confidence;
       word_count := get_int processing_metadata "word_count";
       detected_lines := get_lines processing_metadata "detected_lines" |} in
  {| success := true;
     extracted_text := extracted_text;
     parsed_fields := parsed_fields;
     metadata := metadata |}.

(** From [# Process based on file type] to the [return]. *)
Definition process (eng : Engines) (env : Env) (file : UploadFile)
  : M OCRResponse :=
  do (extracted_text, confidence, processing_metadata) <-
    (if bool_decide (up_content_type file = Some "application/pdf"%string)
     then extract_text_from_pdf (as_pdf eng (up_content file))
     else extract_text_from_image TmpUpload (as_image eng (up_content file)));
  ret (build_response env file extracted_text confidence processing_metadata).

(** [except HTTPException: raise] and
    [except Exception as e: raise HTTPException(500, ...)] *)
Definition reraise (e : exc) : exc :=
  match e with
  | HTTPException _ _ => e
  | EngineError _ => HTTPException 500 (OcrProcessingFailed e)
  end.

(** The handler.  The [finally] clause removes the stored upload only
    when [temp_path] was assigned, that is once [store_upload] is over. *)
Definition extract_text (eng : Engines) (env : Env) (file : UploadFile)
  : M OCRResponse :=
  if declared_too_large env file
  then raise (HTTPException 413 (FileTooLarge (MAX_FILE_SIZE env)))
  else if negb (allowed (up_content_type file))
  then raise (HTTPException 400 (UnsupportedFileType (up_content_type file)))
  else
    try_except
      (store_upload env file ;;
       try_finally (process eng env file) (unlink_if_exists TmpUpload))
      reraise.

(** The HTTP response FastAPI sends. *)
Inductive json_body : Type :=
| OcrBody (r : OCRResponse)
| DetailBody (d : http_detail)
| MessageBody (detail : string).

Record http_response := mkHttp {
  status : nat;
  body : json_body
}.

(** A returned model is sent with status 200; an [HTTPException] with its
    own status, through [request_entity_too_large_handler] when that is
    413. *)
Definition respond (r : exc + OCRResponse) : http_response :=
  match r with
  | inr resp => mkHttp 200 (OcrBody resp)
  | inl (HTTPException code d) =>
      if code =? 413
      then mkHttp 413 (MessageBody "File size exceeds maximum allowed limit")
      else mkHttp code (DetailBody d)
  | inl (EngineError _) =>
      mkHttp 500 (MessageBody "Internal server error during OCR processing")
  end.

(** One request, from a world without temporary files. *)
Definition post_ocr (eng : Engines) (env : Env) (file : UploadFile)
  : world * http_response :=
  let '(w, r) := extract_text eng env file empty_world in (w, respond r).

End Api.

(* ------------------------------------------------------------------ *)
(** ** Inputs used in the examples *)
(* ------------------------------------------------------------------ *)

Module Samples.
Import PyStr Effects Ocr Api.

Definition lines_text (ls : list string) : text :=
  join [newline] (map s2l ls).

(** The text of [test_extract_total_amount_with_dollar_sign]. *)
Definition receipt_text : text :=
  lines_text ["SUBTOTAL: $45.50"; "TAX: $3.64"; "TOTAL: $49.14"]%string.

(** The text of [test_extract_invoice_number]. *)
Definition invoice_text : text := s2l "INVOICE #INV-2024-001".

Definition dated_text : text := s2l "15 Jan 2024".

(** An image on which OCR succeeds, and one on which it raises. *)
Definition readable (s : string) (conf : list Z) : image_file :=
  ImageFile (inr (OcrData (s2l s) conf)) 2048 (Some "PNG"%string) (64, 32)%Z.

Definition unreadable : image_file :=
  ImageFile (inl "tesseract failed"%string) 2048 None (0, 0)%Z.

Definition scan : image_file := readable "Paid in full" [96; 0; 91; -1; 89]%Z.

(** A two-page digital PDF; the second page has no text. *)
Definition digital_pdf : pdf_file :=
  PdfFile (inr [Page (s2l "Hello there world") scan; Page [] scan]) 4096.

(** An eight-page scanned PDF. *)
Definition scanned_pdf : pdf_file :=
  PdfFile (inr (repeat (Page [] scan) 8)) 4096.

(** A two-page scanned PDF whose first page cannot be read. *)
Definition damaged_pdf : pdf_file :=
  PdfFile (inr [Page [] unreadable; Page [] scan]) 4096.

Definition engines_for (img : image_file) (pdf : pdf_file) : Engines :=
  mkEngines (fun _ => img) (fun _ => pdf).

(** The environment of a request under a size limit of [limit] bytes. *)
Definition env_with_limit (limit : Z) : Env :=
  mkEnv limit "3f0c9a52" 0 (1 # 4).

(** An upload of [n] bytes declared with content type [ct]. *)
Definition upload (ct : string) (declared : option Z) (n : nat) : UploadFile :=
  mkUpload (Some "bill.bin"%string) (Some ct) declared (repeat Byte.x00 n).

End Samples.

(* ------------------------------------------------------------------ *)
(** ** Notions used to state the properties *)
(* ------------------------------------------------------------------ *)

Module Props.
Import PyStr Regex Effects Ocr Api.

Definition non_space (c : ascii) : bool := negb (is_space c).

(** A text without lowercase letters. *)
Definition no_lower (s : text) : bool :=
  forallb (fun c => negb (is_lower c)) s.

(** A text with a character that is not whitespace. *)
Definition non_blank (s : text) : bool := existsb non_space s.

(** [P] holds of an optional member when it is set. *)
Definition when_set {A} (o : option A) (P : A -> Prop) : Prop :=
  match o with
  | Some v => P v
  | None => True
  end.

(** [v] was cut out of [s]. *)
Definition slice_of (s v : text) : Prop := exists a b, v = slice a b s.

(** The arithmetic mean of a list of integers. *)
Definition mean (l : list Z) : Q :=
  (inject_Z (sumZ l) / inject_Z (Z.of_nat (List.length l)))%Q.

Definition positive_conf (c : Z) : bool := (0 <? c)%Z.

(** The embedded texts of the pages that have one, in page order. *)
Definition digital_texts (doc : list page) : list text :=
  List.filter non_blank (map page_text doc).

(** The texts OCR finds on the pages it can read, in page order. *)
Definition ocr_texts (pages : list page) : list text :=
  flat_map (fun p =>
              match img_ocr (page_image p) with
              | inr data =>
                  if non_blank (ocr_text data) then [ocr_text data] else []
              | inl _ => []
              end) pages.

Definition words_of (parts : list text) : Z :=
  sumZ (map word_count_of parts).

(** The first page on which OCR raises, with the message. *)
Fixpoint first_failure (pages : list page) : option (nat * string) :=
  match pages with
  | [] => None
  | p :: ps =>
      match img_ocr (page_image p) with
      | inl msg => Some (0, msg)
      | inr _ =>
          match first_failure ps with
          | Some (i, m) => Some (S i, m)
          | None => None
          end
      end
  end.

(** The number of pages the fallback loop visits. *)
Definition visited (pages : list page) : nat :=
  match first_failure pages with
  | Some (i, _) => S i
  | None => List.length pages
  end.

(** The steps taken for one page of the fallback loop. *)
Definition page_steps (n : nat) : list event :=
  [EvPageSave n; EvOcr (TmpPage n); EvUnlink (TmpPage n)].

(** No rasterized page is lying around. *)
Definition pages_free (w : world) : bool :=
  forallb (fun f => match f with TmpPage _ => false | TmpUpload => true end)
          (live w).

(** The world once the upload is stored. *)
Definition stored : world :=
  World [TmpUpload] [EvTempCreate; EvUploadRead; EvTempWrite].

(** The upload fails validation: declared size, content type, or size
    once read. *)
Definition rejected (env : Env) (file : UploadFile) : bool :=
  declared_too_large env file
  || negb (allowed (up_content_type file))
  || (MAX_FILE_SIZE env <? content_len file)%Z.

(** What PyMuPDF raises when a closed document is asked for its
    length. *)
Definition document_closed : exc := EngineError "document closed".

(** What the processing of a PDF fails with: the document does not open,
    or OCR fails on a page of the fallback, or else the closed document is
    asked for its length. *)
Definition pdf_failure (pdf : pdf_file) : exc :=
  match pdf_doc pdf with
  | inl msg => EngineError msg
  | inr doc =>
      if existsb non_blank (map page_text doc) then document_closed
      else
        match first_failure (firstn (Nat.min (List.length doc) 5) doc) with
        | Some (_, msg) =>
            HTTPException 500 (OcrProcessingFailed (EngineError msg))
        | None => document_closed
        end
  end.

(** The number of pages a run of the PDF pipeline rasterizes. *)
Definition rasterized (pdf : pdf_file) : nat :=
  match pdf_doc pdf with
  | inl _ => 0
  | inr doc =>
      if existsb non_blank (map page_text doc) then 0
      else visited (firstn (Nat.min (List.length doc) 5) doc)
  end.





End Props.

(* ------------------------------------------------------------------ *)
(** ** What a pattern can read *)
(* ------------------------------------------------------------------ *)

Module RegexSem.
Import PyStr Regex Fields.

(** [matches r u]: the pattern [r] can read exactly the text [u], anchors
    and captures aside. *)
Inductive matches : re -> text -> Prop :=
| MEps : matches Eps []
| MCls (p : ascii -> bool) (c : ascii) : p c = true -> matches (Cls p) [c]
| MBol : matches Bol []
| MSeq (a b : re) (u v : text) :
    matches a u -> matches b v -> matches (Seq a b) (u ++ v)
| MAltL (a b : re) (u : text) : matches a u -> matches (Alt a b) u
| MAltR (a b : re) (u : text) : matches b u -> matches (Alt a b) u
| MStarNil (g : bool) (a : re) : matches (Star g a) []
| MStarCons (g : bool) (a : re) (u v : text) :
    matches a u -> matches (Star g a) v -> matches (Star g a) (u ++ v)
| MGrp (a : re) (u : text) : matches a u -> matches (Grp a) u.

(** The 256 characters. *)
Definition all_ascii : list ascii := map ascii_of_nat (seq 0 256).

(** Every character of class [p] satisfies [P]. *)
Definition class_within (P p : ascii -> bool) : bool :=
  forallb (fun c => implb (p c) (P c)) all_ascii.

(** Every character class of [r] lies within [P]. *)
Fixpoint only_reads (P : ascii -> bool) (r : re) : bool :=
  match r with
  | Eps | Bol => true
  | Cls p => class_within P p
  | Seq a b | Alt a b => only_reads P a && only_reads P b
  | Star _ a | Grp a => only_reads P a
  end.

(** Whatever [r] reads, it reads a character that satisfies [P]. *)
Fixpoint must_read (P : ascii -> bool) (r : re) : bool :=
  match r with
  | Eps | Bol | Star _ _ => false
  | Cls p => class_within P p
  | Seq a b => must_read P a || must_read P b
  | Alt a b => must_read P a && must_read P b
  | Grp a => must_read P a
  end.

(** A lower bound on the length of what [r] reads. *)
Fixpoint min_len (r : re) : nat :=
  match r with
  | Eps | Bol | Star _ _ => 0
  | Cls _ => 1
  | Seq a b => min_len a + min_len b
  | Alt a b => Nat.min (min_len a) (min_len b)
  | Grp a => min_len a
  end.

(** Every match of [r] closes the group. *)
Fixpoint sets_cap (r : re) : bool :=
  match r with
  | Eps | Bol | Cls _ | Star _ _ => false
  | Seq a b => sets_cap a || sets_cap b
  | Alt a b => sets_cap a && sets_cap b
  | Grp _ => true
  end.

Fixpoint no_group (r : re) : bool :=
  match r with
  | Eps | Bol | Cls _ => true
  | Seq a b | Alt a b => no_group a && no_group b
  | Star _ a => no_group a
  | Grp _ => false
  end.

(** Whatever a group of [r] reads satisfies [G]. *)
Fixpoint groups_ok (G : text -> Prop) (r : re) : Prop :=
  match r with
  | Eps | Bol | Cls _ => True
  | Seq a b | Alt a b => groups_ok G a /\ groups_ok G b
  | Star _ a => groups_ok G a
  | Grp a => (forall u, matches a u -> G u) /\ groups_ok G a
  end.

(** A matcher state that belongs to the subject [s], with a capture that
    satisfies [G]. *)
Definition st_ok (G : text -> Prop) (s : text) (st : mstate) : Prop :=
  rest st = skipn (pos st) s /\
  match cap st with
  | Some (a, b) => G (slice a b s)
  | None => True
  end.

(** The body of the group of the invoice patterns: [\w+[-/]?\w*]. *)
Definition invoice_token : re :=
  seqs [plus w; opt (Cls (one_of "-/")); star w].

(** The characters a stored date is made of. *)
Definition date_char (c : ascii) : bool :=
  is_digit c || is_upper_letter c || one_of "/-," c || is_space c.

(** The characters an amount is made of. *)
Definition amount_char (c : ascii) : bool := is_digit c || one_of ",." c.

End RegexSem.

(* ------------------------------------------------------------------ *)
(** ** Properties of the string methods *)
(* ------------------------------------------------------------------ *)

Module PyStrFacts.
Import PyStr Props.

Lemma upper_char_not_lower (c : ascii) : is_lower (upper_char c) = false.
Proof.
  destruct c as [[] [] [] [] [] [] [] []]; reflexivity.
Qed.

Lemma no_lower_upper (s : text) : no_lower (upper s) = true.
Proof.
  induction s as [|c s IH]; simpl; [reflexivity|].
  now rewrite upper_char_not_lower, IH.
Qed.

Lemma no_lower_app (s u : text) :
  no_lower (s ++ u) = no_lower s && no_lower u.
Proof. apply forallb_app. Qed.

Lemma no_lower_rev (s : text) : no_lower (rev s) = no_lower s.
Proof.
  induction s as [|c s IH]; simpl; [reflexivity|].
  rewrite no_lower_app, IH; simpl.
  rewrite andb_true_r; apply andb_comm.
Qed.

Lemma no_lower_skipn (n : nat) (s : text) :
  no_lower s = true -> no_lower (skipn n s) = true.
Proof.
  revert s; induction n as [|n IH]; intros [|c s]; simpl; auto.
  intros H; apply andb_prop in H as [_ H]; auto.
Qed.

Lemma no_lower_firstn (n : nat) (s : text) :
  no_lower s = true -> no_lower (firstn n s) = true.
Proof.
  revert s; induction n as [|n IH]; intros [|c s]; simpl; auto.
  intros H; apply andb_prop in H as [Hc H]; rewrite Hc; simpl; auto.
Qed.

Lemma no_lower_slice (a b : nat) (s : text) :
  no_lower s = true -> no_lower (slice a b s) = true.
Proof.
  intros H; unfold slice; now apply no_lower_firstn, no_lower_skipn.
Qed.

Lemma no_lower_lstrip (s : text) :
  no_lower s = true -> no_lower (lstrip s) = true.
Proof.
  induction s as [|c s IH]; simpl; [reflexivity|].
  intros H; destruct (is_space c); [|exact H].
  apply andb_prop in H as [_ H]; auto.
Qed.

Lemma no_lower_strip (s : text) :
  no_lower s = true -> no_lower (strip s) = true.
Proof.
  intros H; unfold strip, rstrip.
  rewrite no_lower_rev; apply no_lower_lstrip.
  rewrite no_lower_rev; now apply no_lower_lstrip.
Qed.

(** [lstrip] removes a run of whitespace from the front. *)
Lemma lstrip_split (s : text) :
  exists pre, s = pre ++ lstrip s /\ forallb is_space pre = true.
Proof.
  induction s as [|c s [pre [E F]]]; simpl.
  - now exists [].
  - destruct (is_space c) eqn:Hc.
    + exists (c :: pre); simpl; rewrite Hc, F; split; [now f_equal|reflexivity].
    + now exists [].
Qed.

(** [lstrip] leaves alone a text that does not start with whitespace. *)
Lemma lstrip_head (c : ascii) (s : text) :
  is_space c = false -> lstrip (c :: s) = c :: s.
Proof. intros H; simpl; now rewrite H. Qed.

Lemma lstrip_cases (s : text) :
  lstrip s = [] \/ exists c u, lstrip s = c :: u /\ is_space c = false.
Proof.
  induction s as [|c s IH]; simpl; [now left|].
  destruct (is_space c) eqn:Hc; [exact IH|].
  right; now exists c, s.
Qed.

Lemma lstrip_idem (s : text) : lstrip (lstrip s) = lstrip s.
Proof.
  destruct (lstrip_cases s) as [E | (c & u & E & Hc)]; rewrite E;
    [reflexivity | now apply lstrip_head].
Qed.

Lemma truthy_rev (s : text) : truthy (rev s) = truthy s.
Proof.
  destruct s as [|c s]; simpl; [reflexivity|].
  destruct (rev s); reflexivity.
Qed.

Lemma non_space_false (c : ascii) : is_space c = true -> non_space c = false.
Proof. unfold non_space; now intros ->. Qed.

Lemma non_space_true (c : ascii) : is_space c = false -> non_space c = true.
Proof. unfold non_space; now intros ->. Qed.

Lemma truthy_lstrip (s : text) : truthy (lstrip s) = non_blank s.
Proof.
  induction s as [|c s IH]; simpl; [reflexivity|].
  destruct (is_space c) eqn:Hc.
  - rewrite IH; unfold non_blank; simpl.
    now rewrite (non_space_false c Hc).
  - now rewrite (non_space_true c Hc).
Qed.

Lemma non_blank_lstrip (s : text) : non_blank (lstrip s) = non_blank s.
Proof.
  induction s as [|c s IH]; simpl; [reflexivity|].
  destruct (is_space c) eqn:Hc; [|reflexivity].
  rewrite IH; unfold non_blank; simpl.
  now rewrite (non_space_false c Hc).
Qed.

Lemma non_blank_rev (s : text) : non_blank (rev s) = non_blank s.
Proof.
  unfold non_blank; induction s as [|c s IH]; simpl; [reflexivity|].
  rewrite existsb_app, IH; simpl.
  rewrite orb_false_r; apply orb_comm.
Qed.

(** [bool(s.strip())] holds exactly of the texts that are not blank. *)
Lemma truthy_strip (s : text) : truthy (strip s) = non_blank s.
Proof.
  unfold strip, rstrip.
  now rewrite truthy_rev, truthy_lstrip, non_blank_rev, non_blank_lstrip.
Qed.

(** [strip] is idempotent. *)
Lemma strip_idem (s : text) : strip (strip s) = strip s.
Proof.
  unfold strip, rstrip.
  set (u := lstrip s).
  destruct (lstrip_split (rev u)) as (pre & E & _).
  set (v := lstrip (rev u)) in *.
  assert (Hu : u = rev v ++ rev pre).
  { rewrite <- (rev_involutive u), E, rev_app_distr; reflexivity. }
  assert (Hl : lstrip (rev v) = rev v).
  { destruct (rev v) as [|c r] eqn:Er; [reflexivity|].
    apply lstrip_head.
    destruct (lstrip_cases s) as [E0 | (c0 & u0 & E0 & Hc0)];
      fold u in E0; rewrite Hu in E0; simpl in E0; [discriminate|].
    now injection E0 as -> _. }
  rewrite Hl, rev_involutive.
  unfold v; now rewrite lstrip_idem.
Qed.

Lemma non_blank_app (s u : text) :
  non_blank (s ++ u) = non_blank s || non_blank u.
Proof. apply existsb_app. Qed.

(** Joining keeps a non-blank part visible. *)
Lemma non_blank_join (sep : text) (parts : list text) :
  existsb non_blank parts = true -> non_blank (join sep parts) = true.
Proof.
  induction parts as [|p ps IH]; simpl; [discriminate|].
  intros H; destruct ps as [|q ps].
  - simpl in H; now rewrite orb_false_r in H.
  - rewrite !non_blank_app.
    apply orb_prop in H as [H|H]; [now rewrite H|].
    rewrite (IH H); now rewrite !orb_true_r.
Qed.

End PyStrFacts.

(* ------------------------------------------------------------------ *)
(** ** Field extraction *)
(* ------------------------------------------------------------------ *)

Module FieldFacts.
Import PyStr Regex Fields Props PyStrFacts Samples.

Lemma group1_slice (s : text) (m : rmatch) : slice_of s (group1 s m).
Proof.
  unfold group1; destruct (m_group1 m) as [[a b]|].
  - now exists a, b.
  - now exists 0, 0.
Qed.

Lemma slice_of_no_lower (s v : text) :
  no_lower s = true -> slice_of s v -> no_lower v = true.
Proof. unfold slice_of; intros H (a & b & ->); now apply no_lower_slice. Qed.

Lemma find_date_slice (ps : list re) (tu : text) :
  when_set (find_date ps tu) (slice_of tu).
Proof.
  induction ps as [|p ps IH]; simpl; [exact I|].
  destruct (search p tu) as [m|]; [apply group1_slice | exact IH].
Qed.

Lemma find_invoice_slice (ps : list re) (tu : text) :
  when_set (find_invoice ps tu) (slice_of tu).
Proof.
  induction ps as [|p ps IH]; simpl; [exact I|].
  destruct (search p tu) as [m|]; [|exact IH].
  destruct (2 <? _); [apply group1_slice | exact IH].
Qed.

Lemma vendor_of_line_slice (ps : list re) (lu : text) :
  when_set (vendor_of_line ps lu) (fun v => exists g, slice_of lu g /\ v = strip g).
Proof.
  induction ps as [|p ps IH]; simpl; [exact I|].
  destruct (search p lu) as [m|]; [|exact IH].
  destruct (2 <? _); [|exact IH].
  exists (group1 lu m); split; [apply group1_slice | reflexivity].
Qed.

Lemma find_vendor_slice (ls : list text) :
  when_set (find_vendor ls)
    (fun v => exists line g,
       In line ls /\ slice_of (upper line) g /\ v = strip g).
Proof.
  induction ls as [|l ls IH]; cbn [find_vendor]; [exact I|].
  pose proof (vendor_of_line_slice vendor_patterns (upper l)) as H.
  destruct (vendor_of_line vendor_patterns (upper l)) as [v|];
    cbn [when_set] in *.
  - destruct H as (g & Hg & ->); exists l, g; split; [now left | auto].
  - destruct (find_vendor ls) as [v|]; cbn [when_set] in *; [|exact I].
    destruct IH as (line & g & Hin & Hg & ->).
    exists line, g; split; [now right | auto].
Qed.

Lemma find_title_line (ls : list text) :
  when_set (find_title ls) (fun v => exists l, In l ls /\ v = strip l).
Proof.
  destruct ls as [|l0 ls]; simpl; [exact I|].
  destruct (has_keyword (upper l0)); simpl.
  - exists l0; auto.
  - destruct ls as [|l1 ls]; simpl; [exact I|].
    destruct (has_keyword (upper l1)); simpl; [|exact I].
    exists l1; auto.
Qed.

Lemma nonempty_lines_raw (t l : text) :
  In l (nonempty_lines t) ->
  exists raw, In raw (split_on newline t) /\ l = strip raw.
Proof.
  unfold nonempty_lines; intros H.
  apply in_map_iff in H as (raw & <- & H).
  apply filter_In in H as [H _]; now exists raw.
Qed.

Lemma nonempty_lines_fixed (t l : text) :
  In l (nonempty_lines t) -> strip l = l.
Proof.
  unfold nonempty_lines; intros H.
  apply in_map_iff in H as (raw & <- & _); apply strip_idem.
Qed.

(** The title is the first line, or else the second. *)
Lemma find_title_position (ls : list text) :
  (forall l, In l ls -> strip l = l) ->
  when_set (find_title ls)
    (fun v => nth_error ls 0 = Some v \/ nth_error ls 1 = Some v).
Proof.
  intros Hfix; destruct ls as [|l0 ls]; cbn [find_title]; [exact I|].
  destruct (has_keyword (upper l0)); cbn [when_set].
  - left; cbn; now rewrite (Hfix l0 (or_introl eq_refl)).
  - destruct ls as [|l1 ls]; [exact I|].
    destruct (has_keyword (upper l1)); cbn [when_set]; [|exact I].
    right; cbn; now rewrite (Hfix l1 (or_intror (or_introl eq_refl))).
Qed.

(** The matcher on the other texts of [TestStructuredFieldExtraction]. *)
Example total_with_commas :
  total (extract_structured_fields (s2l "TOTAL: $1,234.56"))
  = Some (30864 # 25)%Q.
Proof. vm_compute; reflexivity. Qed.

Example date_with_slashes :
  date (extract_structured_fields (s2l "Invoice Date: 01/15/2024"))
  = Some (s2l "01/15/2024").
Proof. vm_compute; reflexivity. Qed.

Example vendor_before_suffix :
  vendor (extract_structured_fields
            (lines_text ["ACME CORPORATION"; "123 Main St"; "Invoice #123"]))
  = Some (s2l "ACME").
Proof. vm_compute; reflexivity. Qed.

Example title_keeps_casing :
  title (extract_structured_fields
           (lines_text ["  Invoice for January"; "Billing services"]))
  = Some (s2l "Invoice for January").
Proof. vm_compute; reflexivity. Qed.

Example nothing_to_extract :
  extract_structured_fields
    (s2l "Some random text without any structured information")
  = mkFields None None None None None.
Proof. vm_compute; reflexivity. Qed.

(** C1, as evaluated.  On the text of
    [test_extract_total_amount_with_dollar_sign] the first rule, TOTAL,
    already matches inside the word SUBTOTAL (at index 3, capturing
    indices 11 to 16), so the total is 45.50 and not the 49.14 of the TOTAL
    line. *)
Theorem total_of_receipt_text :
  search (labelled "TOTAL") (upper receipt_text)
    = Some (RMatch 3 16 (Some (11, 16))) /\
  total (extract_structured_fields receipt_text) = Some (91 # 2)%Q /\
  ~ (91 # 2 == 4914 # 100)%Q.
Proof.
  split; [vm_compute; reflexivity|].
  split; [vm_compute; reflexivity|].
  unfold Qeq; simpl; lia.
Qed.

(** C4, as evaluated.  On the text of [test_extract_invoice_number] the
    group [\w+[-/]?\w*] admits one separator only: it stops in front of the
    second hyphen and the stored number is INV-2024. *)
Theorem invoice_number_of_invoice_text :
  invoice_number (extract_structured_fields invoice_text)
    = Some (s2l "INV-2024") /\
  s2l "INV-2024" <> s2l "INV-2024-001".
Proof.
  split; [vm_compute; reflexivity | discriminate].
Qed.

(** C5 is not true of the date: matched as [15 Jan 2024], it is stored as
    [15 JAN 2024], which does not occur in the input. *)
Lemma date_casing_counterexample :
  date (extract_structured_fields dated_text) = Some (s2l "15 JAN 2024") /\
  s2l "15 JAN 2024" <> dated_text /\
  contains (s2l "15 JAN 2024") dated_text = false.
Proof.
  split; [vm_compute; reflexivity|].
  split; [discriminate | vm_compute; reflexivity].
Qed.

(** C5, amended.  For every input text: the title, when set, is the
    first or the second non-empty line of the input, with its surrounding
    whitespace removed and in its original casing; the date and the invoice number, when set, are cut out of the
    uppercased text, and the vendor out of an uppercased line among the
    first five, so none of the three contains a lowercase letter. *)
Theorem casing_of_stored_fields (t : text) :
  let fields := extract_structured_fields t in
  when_set (title fields)
    (fun v => (exists raw, In raw (split_on newline t) /\ v = strip raw) /\
              (nth_error (nonempty_lines t) 0 = Some v \/
               nth_error (nonempty_lines t) 1 = Some v)) /\
  when_set (date fields)
    (fun v => slice_of (upper t) v /\ no_lower v = true) /\
  when_set (invoice_number fields)
    (fun v => slice_of (upper t) v /\ no_lower v = true) /\
  when_set (vendor fields)
    (fun v => (exists line g, In line (firstn 5 (nonempty_lines t)) /\
                 slice_of (upper line) g /\ v = strip g) /\
              no_lower v = true).
Proof.
  cbn [extract_structured_fields title date invoice_number vendor].
  repeat apply conj.
  - pose proof (find_title_line (nonempty_lines t)) as H.
    pose proof (find_title_position (nonempty_lines t)
                  (nonempty_lines_fixed t)) as Hpos.
    destruct (find_title (nonempty_lines t)) as [v|]; cbn [when_set] in *;
      [|exact I].
    split; [|exact Hpos].
    destruct H as (l & Hin & ->).
    apply nonempty_lines_raw in Hin as (raw & Hraw & ->).
    exists raw; split; [exact Hraw | apply strip_idem].
  - pose proof (find_date_slice date_patterns (upper t)) as H.
    destruct (find_date date_patterns (upper t)) as [v|]; cbn [when_set] in *;
      [|exact I].
    split; [exact H|].
    eapply slice_of_no_lower; [apply no_lower_upper | exact H].
  - pose proof (find_invoice_slice invoice_patterns (upper t)) as H.
    destruct (find_invoice invoice_patterns (upper t)) as [v|];
      cbn [when_set] in *; [|exact I].
    split; [exact H|].
    eapply slice_of_no_lower; [apply no_lower_upper | exact H].
  - pose proof (find_vendor_slice (firstn 5 (nonempty_lines t))) as H.
    destruct (find_vendor (firstn 5 (nonempty_lines t))) as [v|];
      cbn [when_set] in *; [|exact I].
    split; [exact H|].
    destruct H as (line & g & _ & Hg & ->).
    apply no_lower_strip.
    eapply slice_of_no_lower; [apply no_lower_upper | exact Hg].
Qed.

End FieldFacts.

(* ------------------------------------------------------------------ *)
(** ** The image and PDF pipelines *)
(* ------------------------------------------------------------------ *)

Module OcrFacts.
Import PyStr Effects Ocr Props PyStrFacts Samples.

Lemma Qmake_of_nat_div (s : Z) (n : nat) :
  n <> 0 ->
  (Qmake s (Pos.of_nat n) == inject_Z s / inject_Z (Z.of_nat n))%Q.
Proof.
  destruct n as [|k]; [congruence|intros _].
  rewrite <- Pos.of_nat_succ.
  unfold Qdiv, Qinv, Qmult, Qeq, inject_Z; simpl.
  lia.
Qed.

(** The code's average is the mean of the positive confidences. *)
Lemma avg_confidence_mean (conf : list Z) :
  (avg_confidence conf ==
   if existsb positive_conf conf
   then mean (List.filter positive_conf conf)
   else 0)%Q.
Proof.
  unfold avg_confidence, confidences, mean.
  fold positive_conf.
  change (fun c => (0 <? c)%Z) with positive_conf.
  induction conf as [|c conf IH]; simpl; [reflexivity|].
  destruct (positive_conf c) eqn:Hc; simpl.
  - apply Qmake_of_nat_div; discriminate.
  - exact IH.
Qed.

(** A run of [extract_text_from_image] on a readable image. *)
Lemma image_run_ok (path : tmp_file) (img : image_file) (data : ocr_data)
  (w : world) :
  img_ocr img = inr data ->
  extract_text_from_image path img w
  = (World (live w) (log w ++ [EvOcr path]),
     inr (ocr_text data, avg_confidence (ocr_conf data),
          image_metadata img (ocr_text data))).
Proof.
  intros H; unfold extract_text_from_image, try_except, bind, emit.
  now rewrite H.
Qed.

(** A run of [extract_text_from_image] on an image the engine rejects. *)
Lemma image_run_fail (path : tmp_file) (img : image_file) (msg : string)
  (w : world) :
  img_ocr img = inl msg ->
  extract_text_from_image path img w
  = (World (live w) (log w ++ [EvOcr path]),
     inl (HTTPException 500 (OcrProcessingFailed (EngineError msg)))).
Proof.
  intros H; unfold extract_text_from_image, try_except, bind, emit.
  now rewrite H.
Qed.

(** C9.  On every image the engine can read, the confidence returned by
    [extract_text_from_image] is the arithmetic mean of the token
    confidences strictly greater than zero, and 0 when there is none. *)
Theorem image_confidence_is_mean (path : tmp_file) (img : image_file)
  (data : ocr_data) (w : world) (H : img_ocr img = inr data) :
  exists c md,
    snd (extract_text_from_image path img w) = inr (ocr_text data, c, md) /\
    (c == if existsb positive_conf (ocr_conf data)
          then mean (List.filter positive_conf (ocr_conf data))
          else 0)%Q.
Proof.
  rewrite (image_run_ok path img data w H); simpl.
  eexists; eexists; split; [reflexivity | apply avg_confidence_mean].
Qed.

Lemma image_confidence_is_mean_witness :
  exists c md,
    snd (extract_text_from_image TmpUpload scan empty_world)
      = inr (s2l "Paid in full", c, md) /\
    (c == 92)%Q.
Proof.
  destruct (image_confidence_is_mean TmpUpload scan
              (OcrData (s2l "Paid in full") [96; 0; 91; -1; 89]%Z)
              empty_world eq_refl) as (c & md & E & Hc).
  exists c, md; split; [exact E|].
  rewrite Hc; vm_compute; reflexivity.
Defined.

Lemma sumZ_app (l1 l2 : list Z) : sumZ (l1 ++ l2) = (sumZ l1 + sumZ l2)%Z.
Proof.
  unfold sumZ; induction l1 as [|x l1 IH]; simpl; [reflexivity|].
  rewrite IH; lia.
Qed.

Lemma words_of_app (l1 l2 : list text) :
  words_of (l1 ++ l2) = (words_of l1 + words_of l2)%Z.
Proof. unfold words_of; now rewrite map_app, sumZ_app. Qed.

(** The first loop collects the texts that are not blank. *)
Lemma digital_pass_spec (doc : list page) (parts : list text) (words : Z) :
  digital_pass doc parts words
  = (parts ++ digital_texts doc, (words + words_of (digital_texts doc))%Z).
Proof.
  revert parts words; induction doc as [|p doc IH]; intros parts words.
  - simpl; rewrite app_nil_r; f_equal; unfold words_of; simpl; lia.
  - cbn [digital_pass]; unfold digital_texts in *; cbn [map List.filter].
    rewrite truthy_strip.
    destruct (non_blank (page_text p)); rewrite IH.
    + rewrite <- app_assoc; cbn [app]; f_equal.
      change (page_text p :: ?l) with ([page_text p] ++ l).
      rewrite (words_of_app [page_text p]).
      unfold words_of at 2; simpl; lia.
    + reflexivity.
Qed.

Lemma digital_texts_blank (doc : list page) :
  existsb non_blank (map page_text doc) = false -> digital_texts doc = [].
Proof.
  unfold digital_texts; induction doc as [|p doc IH]; simpl; [reflexivity|].
  intros H; apply orb_false_elim in H as [-> H]; auto.
Qed.

Lemma digital_texts_non_blank (doc : list page) :
  existsb non_blank (map page_text doc) = true ->
  existsb non_blank (digital_texts doc) = true.
Proof.
  unfold digital_texts; induction doc as [|p doc IH]; simpl; [discriminate|].
  destruct (non_blank (page_text p)) eqn:Hp; simpl; [now rewrite Hp | auto].
Qed.

Lemma pages_free_filter (n : nat) (l : list tmp_file) :
  forallb (fun f => match f with TmpPage _ => false | TmpUpload => true end) l
    = true ->
  List.filter (fun g => negb (tmp_eqb (TmpPage n) g)) l = l.
Proof.
  induction l as [|f l IH]; simpl; [reflexivity|].
  destruct f; simpl; [|discriminate].
  intros H; f_equal; exact (IH H).
Qed.

Lemma first_failure_cons_ok (p : page) (ps : list page) (data : ocr_data) :
  img_ocr (page_image p) = inr data ->
  visited (p :: ps) = S (visited ps).
Proof.
  intros H; unfold visited; simpl; rewrite H.
  now destruct (first_failure ps) as [[i m]|].
Qed.

Lemma unlink_page (n : nat) (l : list tmp_file) (tr : list event) :
  forallb (fun f => match f with TmpPage _ => false | TmpUpload => true end) l
    = true ->
  unlink_if_exists (TmpPage n) (World (TmpPage n :: l) tr)
  = (World l (tr ++ [EvUnlink (TmpPage n)]), inr tt).
Proof.
  intros H; unfold unlink_if_exists; cbn [live log existsb List.filter].
  assert (E : tmp_eqb (TmpPage n) (TmpPage n) = true) by apply Nat.eqb_refl.
  rewrite E; cbn [orb negb].
  now rewrite (pages_free_filter n l H).
Qed.

(** One turn of the fallback loop on a page OCR fails on. *)
Lemma ocr_pass_cons_fail (n : nat) (p : page) (ps : list page)
  (parts : list text) (words : Z) (w : world) (msg : string) :
  img_ocr (page_image p) = inl msg ->
  pages_free w = true ->
  ocr_pass n (p :: ps) parts words w
  = (World (live w) (log w ++ page_steps n),
     inl (HTTPException 500 (OcrProcessingFailed (EngineError msg)))).
Proof.
  intros Hp Hw; cbn [ocr_pass].
  unfold bind at 1; unfold emit; cbn [live log].
  unfold bind at 1; unfold create; cbn [live log].
  unfold bind at 1; unfold try_finally.
  unfold bind at 1; rewrite (image_run_fail _ _ msg _ Hp); cbn [live log].
  rewrite (unlink_page n _ _ Hw).
  unfold page_steps; now rewrite <- !app_assoc.
Qed.

(** One turn of the fallback loop on a page OCR can read. *)
Lemma ocr_pass_cons_ok (n : nat) (p : page) (ps : list page)
  (parts : list text) (words : Z) (w : world) (data : ocr_data) :
  img_ocr (page_image p) = inr data ->
  pages_free w = true ->
  ocr_pass n (p :: ps) parts words w
  = ocr_pass (S n) ps
      (if non_blank (ocr_text data) then parts ++ [ocr_text data] else parts)
      (if non_blank (ocr_text data)
       then words + word_count_of (ocr_text data) else words)%Z
      (World (live w) (log w ++ page_steps n)).
Proof.
  intros Hp Hw; cbn [ocr_pass].
  unfold bind at 1; unfold emit; cbn [live log].
  unfold bind at 1; unfold create; cbn [live log].
  unfold bind at 1; unfold try_finally.
  unfold bind at 1; rewrite (image_run_ok _ _ data _ Hp); cbn [live log].
  rewrite truthy_strip.
  destruct (non_blank (ocr_text data)); unfold ret;
    rewrite (unlink_page n _ _ Hw); cbn [fst snd];
    unfold page_steps; now rewrite <- !app_assoc.
Qed.

(** The fallback loop: it saves, reads and removes one page image after
    the other, up to and including the first page OCR fails on, and leaves
    no page image behind. *)
Lemma ocr_pass_run (pages : list page) :
  forall (n : nat) (parts : list text) (words : Z) (w : world),
    pages_free w = true ->
    ocr_pass n pages parts words w
    = (World (live w) (log w ++ flat_map page_steps (seq n (visited pages))),
       match first_failure pages with
       | Some (_, msg) =>
           inl (HTTPException 500 (OcrProcessingFailed (EngineError msg)))
       | None =>
           inr (parts ++ ocr_texts pages,
                (words + words_of (ocr_texts pages))%Z)
       end).
Proof.
  induction pages as [|p pages IH]; intros n parts words w Hw.
  - cbn; rewrite !app_nil_r; unfold ret, words_of; simpl.
    destruct w; do 3 f_equal; lia.
  - destruct (img_ocr (page_image p)) as [msg | data] eqn:Hp.
    + rewrite (ocr_pass_cons_fail n p pages parts words w msg Hp Hw).
      unfold visited; cbn [first_failure]; rewrite Hp.
      cbn [seq flat_map]; now rewrite app_nil_r.
    + rewrite (ocr_pass_cons_ok n p pages parts words w data Hp Hw).
      rewrite IH by exact Hw.
      rewrite (first_failure_cons_ok p pages data Hp).
      cbn [live log seq flat_map first_failure]; rewrite Hp.
      rewrite <- app_assoc; f_equal.
      destruct (first_failure pages) as [[i m]|]; [reflexivity|].
      unfold ocr_texts; cbn [flat_map]; rewrite Hp.
      fold (ocr_texts pages).
      destruct (non_blank (ocr_text data)); [|reflexivity].
      rewrite <- app_assoc; cbn [app]; do 2 f_equal.
      change (ocr_text data :: ocr_texts pages)
        with ([ocr_text data] ++ ocr_texts pages).
      rewrite words_of_app; unfold words_of at 2; simpl; lia.
Qed.

(** A PDF with an embedded text: no page is rasterized, and the
    pipeline raises when it asks the closed document for its length. *)
Lemma pdf_run_digital (pdf : pdf_file) (doc : list page) (w : world) :
  pdf_doc pdf = inr doc ->
  existsb non_blank (map page_text doc) = true ->
  extract_text_from_pdf pdf w
  = (World (live w) (log w ++ [EvPdfOpen]),
     inl (HTTPException 500 (PdfProcessingFailed document_closed))).
Proof.
  intros Hdoc Htext; unfold extract_text_from_pdf, try_except.
  unfold bind at 1; unfold emit; rewrite Hdoc.
  unfold bind at 1; unfold doc_len at 1; cbn [is_closed doc_pages ret].
  rewrite firstn_all, digital_pass_spec; cbn [app live log].
  rewrite truthy_strip.
  rewrite (non_blank_join _ _ (digital_texts_non_blank doc Htext)).
  reflexivity.
Qed.

(** A PDF without embedded text: the fallback loop runs over the first
    pages; the pipeline raises on the first page OCR fails on, and when
    there is none, on the length of the closed document. *)
Lemma pdf_run_fallback (pdf : pdf_file) (doc : list page) (w : world) :
  pdf_doc pdf = inr doc ->
  existsb non_blank (map page_text doc) = false ->
  pages_free w = true ->
  let pages := firstn (Nat.min (List.length doc) 5) doc in
  extract_text_from_pdf pdf w
  = (World (live w)
           (log w ++ EvPdfOpen :: flat_map page_steps (seq 0 (visited pages))),
     inl (HTTPException 500
            (PdfProcessingFailed
               match first_failure pages with
               | Some (_, msg) =>
                   HTTPException 500 (OcrProcessingFailed (EngineError msg))
               | None => document_closed
               end))).
Proof.
  intros Hdoc Htext Hw pages; unfold extract_text_from_pdf, try_except.
  unfold bind at 1; unfold emit; rewrite Hdoc.
  unfold bind at 1; unfold doc_len at 1; cbn [is_closed doc_pages ret].
  rewrite firstn_all, digital_pass_spec, (digital_texts_blank doc Htext).
  cbn [app join strip lstrip rstrip rev truthy live log].
  unfold bind at 1 2; unfold doc_len at 1; cbn [is_closed doc_pages ret].
  unfold bind at 1.
  fold pages; rewrite ocr_pass_run by exact Hw.
  cbn [live log]; rewrite <- app_assoc; cbn [app].
  destruct (first_failure pages) as [[i msg]|]; reflexivity.
Qed.

(** C7 is not true of a page OCR fails on.  In a two-page scanned PDF
    whose first page cannot be read, the image of page 0 is removed, the
    request fails, and page 1, which is readable, is never rasterized. *)
Lemma failed_page_counterexample :
  pdf_doc damaged_pdf = inr [Page [] unreadable; Page [] scan] /\
  img_ocr scan = inr (OcrData (s2l "Paid in full") [96; 0; 91; -1; 89]%Z) /\
  extract_text_from_pdf damaged_pdf empty_world
  = (World [] [EvPdfOpen; EvPageSave 0; EvOcr (TmpPage 0);
               EvUnlink (TmpPage 0)],
     inl (HTTPException 500
            (PdfProcessingFailed
               (HTTPException 500
                  (OcrProcessingFailed (EngineError "tesseract failed")))))).
Proof.
  repeat split.
Qed.

(** C7, amended.  For every PDF without embedded text, whatever OCR does
    on its pages: the steps of the fallback loop are, page after page, the
    saving of the page image, its OCR pass and its removal, so that every
    page image is removed right after its OCR pass, on success and on
    failure, and none is left at the end; the loop stops at the first page
    OCR fails on, the pages after it are not visited, and the pipeline
    raises status 500 with that failure; when OCR fails on no page, every
    page of the fallback is visited. *)
Theorem fallback_pages_released (pdf : pdf_file) (doc : list page) (w : world)
  (Hdoc : pdf_doc pdf = inr doc)
  (Htext : existsb non_blank (map page_text doc) = false)
  (Hw : pages_free w = true) :
  let pages := firstn (Nat.min (List.length doc) 5) doc in
  let r := extract_text_from_pdf pdf w in
  live (fst r) = live w /\
  log (fst r)
    = log w ++ EvPdfOpen :: flat_map page_steps (seq 0 (visited pages)) /\
  match first_failure pages with
  | Some (i, msg) =>
      visited pages = S i /\
      snd r = inl (HTTPException 500
                     (PdfProcessingFailed
                        (HTTPException 500
                           (OcrProcessingFailed (EngineError msg)))))
  | None => visited pages = List.length pages
  end.
Proof.
  intros pages r; unfold r.
  rewrite (pdf_run_fallback pdf doc w Hdoc Htext Hw); fold pages.
  cbn [fst snd live log]; repeat split.
  unfold visited.
  destruct (first_failure pages) as [[i msg]|]; [split|]; reflexivity.
Qed.

Lemma fallback_pages_released_witness :
  let r := extract_text_from_pdf damaged_pdf empty_world in
  live (fst r) = [] /\
  log (fst r) = [EvPdfOpen; EvPageSave 0; EvOcr (TmpPage 0);
                 EvUnlink (TmpPage 0)] /\
  visited [Page [] unreadable; Page [] scan] = 1 /\
  snd r = inl (HTTPException 500
                 (PdfProcessingFailed
                    (HTTPException 500
                       (OcrProcessingFailed
                          (EngineError "tesseract failed"))))).
Proof.
  exact (fallback_pages_released damaged_pdf
           [Page [] unreadable; Page [] scan] empty_world
           eq_refl eq_refl eq_refl).
Defined.

End OcrFacts.

(* ------------------------------------------------------------------ *)
(** ** The handler *)
(* ------------------------------------------------------------------ *)

Module ApiFacts.
Import PyStr Effects Ocr Fields Api Props PyStrFacts OcrFacts Samples.

Lemma rejected_false (env : Env) (file : UploadFile) :
  rejected env file = false ->
  declared_too_large env file = false /\
  allowed (up_content_type file) = true /\
  (MAX_FILE_SIZE env <? content_len file)%Z = false.
Proof.
  unfold rejected; intros H.
  apply orb_false_elim in H as [H H3].
  apply orb_false_elim in H as [H1 H2].
  apply negb_false_iff in H2; auto.
Qed.

Lemma store_upload_ok (env : Env) (file : UploadFile) :
  (MAX_FILE_SIZE env <? content_len file)%Z = false ->
  store_upload env file empty_world = (stored, inr tt).
Proof.
  intros H; unfold store_upload, bind, emit, create; cbn; now rewrite H.
Qed.

Lemma store_upload_too_large (env : Env) (file : UploadFile) :
  (MAX_FILE_SIZE env <? content_len file)%Z = true ->
  store_upload env file empty_world
  = (World [TmpUpload] [EvTempCreate; EvUploadRead],
     inl (HTTPException 413 (FileTooLarge (MAX_FILE_SIZE env)))).
Proof.
  intros H; unfold store_upload, bind, emit, create; cbn; now rewrite H.
Qed.

(** Whatever a pipeline raises carries status 500. *)
Lemma image_raises_500 (path : tmp_file) (img : image_file) (w w' : world)
  (e : exc) :
  extract_text_from_image path img w = (w', inl e) ->
  exists d, e = HTTPException 500 d.
Proof.
  unfold extract_text_from_image, try_except.
  destruct (bind _ _ w) as [w0 [e0|a]]; intros [= _ <-]; eauto.
Qed.

Lemma pdf_raises_500 (pdf : pdf_file) (w w' : world) (e : exc) :
  extract_text_from_pdf pdf w = (w', inl e) ->
  exists d, e = HTTPException 500 d.
Proof.
  unfold extract_text_from_pdf, try_except.
  destruct (bind _ _ w) as [w0 [e0|a]]; intros [= _ <-]; eauto.
Qed.

Lemma process_raises_500 (eng : Engines) (env : Env) (file : UploadFile)
  (w w' : world) (e : exc) :
  process eng env file w = (w', inl e) -> exists d, e = HTTPException 500 d.
Proof.
  unfold process, bind.
  destruct (bool_decide _).
  - destruct (extract_text_from_pdf _ w) as [w0 [e0|[[t c] md]]] eqn:E;
      intros [= _ <-]; eapply pdf_raises_500; exact E.
  - destruct (extract_text_from_image _ _ w) as [w0 [e0|[[t c] md]]] eqn:E;
      intros [= _ <-]; eapply image_raises_500; exact E.
Qed.

Lemma process_returns_success (eng : Engines) (env : Env) (file : UploadFile)
  (w w' : world) (resp : OCRResponse) :
  process eng env file w = (w', inr resp) -> success resp = true.
Proof.
  unfold process, bind.
  destruct (if bool_decide _ then _ else _) as [w0 [e0|[[t c] md]]];
    [discriminate|].
  unfold ret; now intros [= _ <-].
Qed.

Lemma unlink_never_raises (f : tmp_file) (w : world) :
  exists w', unlink_if_exists f w = (w', inr tt).
Proof.
  unfold unlink_if_exists; destruct (existsb _ _); eauto.
Qed.

(** What [extract_text] raises has status 400, 413 or 500; what it
    returns says [success = True]. *)
Lemma extract_text_outcome (eng : Engines) (env : Env) (file : UploadFile)
  (w : world) :
  match snd (extract_text eng env file w) with
  | inl (HTTPException c _) => c = 400 \/ c = 413 \/ c = 500
  | inl (EngineError _) => False
  | inr resp => success resp = true
  end.
Proof.
  unfold extract_text.
  destruct (declared_too_large env file); [cbn; auto|].
  destruct (negb (allowed _)); [cbn; auto|].
  unfold try_except, bind at 1.
  destruct (store_upload env file w) as [w1 [e1|[]]] eqn:Es.
  - unfold store_upload, bind, emit, create in Es.
    destruct (_ <? _)%Z; [|discriminate].
    injection Es as _ <-; cbn; auto.
  - unfold try_finally.
    destruct (process eng env file w1) as [w2 [e2|resp]] eqn:Ep;
      destruct (unlink_never_raises TmpUpload w2) as [w3 ->]; cbn.
    + destruct (process_raises_500 _ _ _ _ _ _ Ep) as [d ->]; cbn; auto.
    + eapply process_returns_success; exact Ep.
Qed.

(** C10.  For every request: the response has status 200 exactly when its
    body is an [OCRResponse], and that body says [success = true]; every
    other response carries an error status and a [detail]. *)
Theorem ok_response_reports_success (eng : Engines) (env : Env)
  (file : UploadFile) :
  let resp := snd (post_ocr eng env file) in
  match body resp with
  | OcrBody r => status resp = 200 /\ success r = true
  | DetailBody _ | MessageBody _ => status resp <> 200
  end.
Proof.
  unfold post_ocr.
  pose proof (extract_text_outcome eng env file empty_world) as H.
  destruct (extract_text eng env file empty_world) as [w [[msg|c d]|r]];
    cbn in *; [contradiction | | auto].
  destruct H as [-> | [-> | ->]]; cbn; discriminate.
Qed.

(** The second size check: the temporary file exists, nothing was written
    to it, and it is not removed. *)
Lemma extract_text_too_large_once_read (eng : Engines) (env : Env)
  (file : UploadFile) :
  declared_too_large env file = false ->
  negb (allowed (up_content_type file)) = false ->
  (MAX_FILE_SIZE env <? content_len file)%Z = true ->
  extract_text eng env file empty_world
  = (World [TmpUpload] [EvTempCreate; EvUploadRead],
     inl (HTTPException 413 (FileTooLarge (MAX_FILE_SIZE env)))).
Proof.
  intros H1 H2 H3; unfold extract_text; rewrite H1, H2.
  unfold try_except, bind at 1.
  now rewrite (store_upload_too_large env file H3).
Qed.






(** The same on the two other rejections: a declared size over the limit,
    and the content type of [test_invalid_file_type]. *)
Example declared_size_rejected :
  post_ocr (engines_for scan digital_pdf) (env_with_limit 1024)
           (upload "image/png" (Some 4096%Z) 16)
  = (empty_world,
     mkHttp 413 (MessageBody "File size exceeds maximum allowed limit")).
Proof. vm_compute; reflexivity. Qed.

Example text_plain_rejected :
  post_ocr (engines_for scan digital_pdf) (env_with_limit 1024)
           (upload "text/plain" None 16)
  = (empty_world,
     mkHttp 400 (DetailBody (UnsupportedFileType (Some "text/plain"%string)))).
Proof. vm_compute; reflexivity. Qed.

(** A request that passed validation: the upload is stored, processed
    and removed. *)
Lemma extract_text_accepted (eng : Engines) (env : Env) (file : UploadFile)
  (w2 : world) (res : exc + OCRResponse) :
  rejected env file = false ->
  process eng env file stored = (w2, res) ->
  live w2 = [TmpUpload] ->
  extract_text eng env file empty_world
  = (World [] (log w2 ++ [EvUnlink TmpUpload]),
     match res with
     | inl e => inl (reraise e)
     | inr resp => inr resp
     end).
Proof.
  intros Hr Hp Hl; apply rejected_false in Hr as (H1 & H2 & H3).
  unfold extract_text; rewrite H1, H2; cbn [negb].
  unfold try_except, bind at 1; rewrite (store_upload_ok env file H3).
  unfold try_finally; rewrite Hp.
  unfold unlink_if_exists; rewrite Hl; cbn.
  now destruct res.
Qed.

Lemma process_pdf (eng : Engines) (env : Env) (file : UploadFile) (w : world) :
  up_content_type file = Some "application/pdf"%string ->
  process eng env file w
  = match extract_text_from_pdf (as_pdf eng (up_content file)) w with
    | (w', inl e) => (w', inl e)
    | (w', inr (t, c, md)) => (w', inr (build_response env file t c md))
    end.
Proof.
  intros H; unfold process, bind; rewrite H.
  rewrite bool_decide_eq_true_2 by reflexivity.
  destruct (extract_text_from_pdf _ w) as [w' [e|[[t c] md]]]; reflexivity.
Qed.

(** The dictionary of the PDF pipeline has no [word_count] entry. *)
Lemma pdf_metadata_word_count (pdf : pdf_file) (total_pages : nat)
  (full_text : text) (total_words : Z) (used_ocr : bool) :
  get_int (pdf_metadata pdf total_pages full_text total_words used_ocr)
          "word_count" = None.
Proof. reflexivity. Qed.

(** The dictionary of the image pipeline has one. *)
Lemma image_metadata_word_count (img : image_file) (t : text) :
  get_int (image_metadata img t) "word_count" = Some (word_count_of t).
Proof. reflexivity. Qed.

(** C2, as evaluated.  On a two-page PDF whose first page has the text
    [Hello there world], no page is rasterized, but no result comes out:
    the pipeline closes the document, asks it for its length and raises, and
    the upload is answered with status 500. *)
Theorem digital_pdf_raises_after_close :
  pdf_doc digital_pdf
    = inr [Page (s2l "Hello there world") scan; Page [] scan] /\
  extract_text_from_pdf digital_pdf empty_world
  = (World [] [EvPdfOpen],
     inl (HTTPException 500
            (PdfProcessingFailed (EngineError "document closed")))) /\
  snd (post_ocr (engines_for scan digital_pdf) (env_with_limit 1024)
                (upload "application/pdf" None 16))
  = mkHttp 500 (DetailBody (PdfProcessingFailed
                              (EngineError "document closed"))).
Proof.
  split; [reflexivity|]; split; vm_compute; reflexivity.
Qed.

(** C3, as evaluated.  On an eight-page PDF without any text layer, the
    images of pages 0 to 4 are saved, read by OCR and removed, in order,
    but no result comes out: the pipeline closes the document, asks it for
    its length and raises, and the upload is answered with status 500. *)
Theorem scanned_pdf_raises_after_fallback :
  pdf_doc scanned_pdf = inr (repeat (Page [] scan) 8) /\
  extract_text_from_pdf scanned_pdf empty_world
  = (World [] (EvPdfOpen :: flat_map page_steps [0; 1; 2; 3; 4]),
     inl (HTTPException 500
            (PdfProcessingFailed (EngineError "document closed")))) /\
  snd (post_ocr (engines_for scan scanned_pdf) (env_with_limit 1024)
                (upload "application/pdf" None 16))
  = mkHttp 500 (DetailBody (PdfProcessingFailed
                              (EngineError "document closed"))).
Proof.
  split; [reflexivity|]; split; vm_compute; reflexivity.
Qed.

End ApiFacts.

(* ------------------------------------------------------------------ *)
(** ** Further properties of the field extraction *)
(* ------------------------------------------------------------------ *)

Module FieldProps.
Import PyStr Regex Fields Props PyStrFacts FieldFacts Samples.

(** The lines kept by [nonempty_lines] are stripped and not empty. *)
Lemma nonempty_lines_stripped (t l : text) :
  In l (nonempty_lines t) -> strip l = l /\ truthy l = true.
Proof.
  unfold nonempty_lines; intros H.
  apply in_map_iff in H as (raw & <- & H).
  apply filter_In in H as [_ H].
  split; [apply strip_idem | exact H].
Qed.

Lemma find_invoice_long (ps : list re) (tu : text) :
  when_set (find_invoice ps tu) (fun v => 2 < List.length v).
Proof.
  induction ps as [|p ps IH]; cbn [find_invoice]; [exact I|].
  destruct (search p tu) as [m|]; [|exact IH].
  destruct (2 <? _) eqn:E; [|exact IH].
  now apply Nat.ltb_lt in E.
Qed.

Lemma vendor_of_line_long (ps : list re) (lu : text) :
  when_set (vendor_of_line ps lu)
    (fun v => 2 < List.length v /\ strip v = v).
Proof.
  induction ps as [|p ps IH]; cbn [vendor_of_line]; [exact I|].
  destruct (search p lu) as [m|]; [|exact IH].
  destruct (2 <? _) eqn:E; [|exact IH].
  split; [now apply Nat.ltb_lt in E | apply strip_idem].
Qed.

Lemma find_vendor_long (ls : list text) :
  when_set (find_vendor ls) (fun v => 2 < List.length v /\ strip v = v).
Proof.
  induction ls as [|l ls IH]; cbn [find_vendor]; [exact I|].
  pose proof (vendor_of_line_long vendor_patterns (upper l)) as H.
  destruct (vendor_of_line vendor_patterns (upper l)); [exact H | exact IH].
Qed.

(** X1.  For every text, an invoice number that is set has more than two
    characters, and a vendor that is set has more than two characters and
    neither leading nor trailing whitespace. *)
Theorem short_captures_rejected (t : text) :
  let fields := extract_structured_fields t in
  when_set (invoice_number fields) (fun v => 2 < List.length v) /\
  when_set (vendor fields) (fun v => 2 < List.length v /\ strip v = v).
Proof.
  cbn [extract_structured_fields invoice_number vendor]; split.
  - apply find_invoice_long.
  - apply find_vendor_long.
Qed.

Lemma digits_value_nonneg (s : text) :
  forall acc z, (0 <= acc)%Z -> digits_value acc s = Some z -> (0 <= z)%Z.
Proof.
  induction s as [|c s IH]; intros acc z Hacc; cbn [digits_value].
  - now intros [= <-].
  - destruct (is_digit c); [|discriminate].
    apply IH; lia.
Qed.

Lemma float_of_str_nonneg (s : text) (q : Q) :
  float_of_str s = Some q -> (0 <= q)%Q.
Proof.
  unfold float_of_str.
  destruct (split_on "." s) as [|i [|f [|x l]]]; try discriminate.
  - destruct (truthy i); [|discriminate].
    destruct (digits_value 0 i) as [a|] eqn:Ea; [|discriminate].
    intros [= <-].
    apply (digits_value_nonneg i 0%Z a) in Ea; [|lia].
    unfold Qle, inject_Z; simpl; lia.
  - destruct (truthy i || truthy f); [|discriminate].
    destruct (digits_value 0 i) as [a|] eqn:Ea; [|discriminate].
    destruct (digits_value 0 f) as [b|] eqn:Eb; [|discriminate].
    intros [= <-].
    apply (digits_value_nonneg i 0%Z a) in Ea; [|lia].
    apply (digits_value_nonneg f 0%Z b) in Eb; [|lia].
    rewrite Qred_correct.
    unfold Qle; simpl.
    assert (0 <= 10 ^ Z.of_nat (List.length f))%Z by (apply Z.pow_nonneg; lia).
    nia.
Qed.

Lemma find_total_nonneg (ps : list re) (tu : text) :
  when_set (find_total ps tu) (fun v => (0 <= v)%Q).
Proof.
  induction ps as [|p ps IH]; cbn [find_total]; [exact I|].
  destruct (search p tu) as [m|]; [|exact IH].
  destruct (float_of_str _) as [v|] eqn:E; [|exact IH].
  exact (float_of_str_nonneg _ _ E).
Qed.

(** X2.  For every text, a total that is set is not negative. *)
Theorem total_not_negative (t : text) :
  when_set (total (extract_structured_fields t)) (fun v => (0 <= v)%Q).
Proof.
  cbn [extract_structured_fields total]; apply find_total_nonneg.
Qed.

(** X3.  For every text, a title that is set is not empty, has neither
    leading nor trailing whitespace, and contains, whatever the casing, one
    of INVOICE, BILL, RECEIPT and STATEMENT. *)
Theorem title_carries_keyword (t : text) :
  when_set (title (extract_structured_fields t))
    (fun v => has_keyword (upper v) = true /\ strip v = v /\ v <> []).
Proof.
  cbn [extract_structured_fields title].
  pose proof (nonempty_lines_stripped t) as Hl.
  destruct (nonempty_lines t) as [|l0 ls]; cbn [find_title]; [exact I|].
  destruct (has_keyword (upper l0)) eqn:H0.
  - destruct (Hl l0 (or_introl eq_refl)) as [E T]; cbn [when_set].
    rewrite E; split; [exact H0|]; split; [exact E|].
    intros ->; discriminate.
  - destruct ls as [|l1 ls]; [exact I|].
    destruct (has_keyword (upper l1)) eqn:H1; [|exact I].
    destruct (Hl l1 (or_intror (or_introl eq_refl))) as [E T]; cbn [when_set].
    rewrite E; split; [exact H1|]; split; [exact E|].
    intros ->; discriminate.
Qed.

End FieldProps.

(* ------------------------------------------------------------------ *)
(** ** Soundness of the matcher *)
(* ------------------------------------------------------------------ *)

Module RegexFacts.
Import PyStr Regex Fields Props RegexSem PyStrFacts.

Lemma in_all_ascii (c : ascii) : In c all_ascii.
Proof.
  unfold all_ascii; apply in_map_iff.
  exists (nat_of_ascii c); split; [apply ascii_nat_embedding|].
  apply in_seq; pose proof (nat_ascii_bounded c); lia.
Qed.

Lemma class_within_spec (P p : ascii -> bool) (c : ascii) :
  class_within P p = true -> p c = true -> P c = true.
Proof.
  unfold class_within; intros H Hp.
  rewrite forallb_forall in H; specialize (H c (in_all_ascii c)).
  now rewrite Hp in H.
Qed.

Lemma matches_only_reads (P : ascii -> bool) (r : re) (u : text) :
  matches r u -> only_reads P r = true -> forallb P u = true.
Proof.
  induction 1; cbn [only_reads]; intros Hr; try reflexivity.
  - cbn; now rewrite (class_within_spec P p c Hr H).
  - apply andb_prop in Hr as [Ha Hb].
    now rewrite forallb_app, IHmatches1, IHmatches2.
  - apply andb_prop in Hr as [Ha Hb]; auto.
  - apply andb_prop in Hr as [Ha Hb]; auto.
  - rewrite forallb_app, IHmatches1, IHmatches2; auto.
  - auto.
Qed.

Lemma matches_must_read (P : ascii -> bool) (r : re) (u : text) :
  matches r u -> must_read P r = true -> existsb P u = true.
Proof.
  induction 1; cbn [must_read]; intros Hr; try discriminate.
  - cbn; now rewrite (class_within_spec P p c Hr H).
  - rewrite existsb_app; apply orb_prop in Hr as [Ha|Hb].
    + now rewrite IHmatches1.
    + rewrite IHmatches2 by exact Hb; apply orb_true_r.
  - apply andb_prop in Hr as [Ha Hb]; auto.
  - apply andb_prop in Hr as [Ha Hb]; auto.
  - auto.
Qed.

Lemma matches_min_len (r : re) (u : text) :
  matches r u -> min_len r <= List.length u.
Proof.
  induction 1; cbn [min_len]; try rewrite length_app; cbn; lia.
Qed.

Lemma no_group_groups_ok (G : text -> Prop) (r : re) :
  no_group r = true -> groups_ok G r.
Proof.
  induction r; cbn; intros H; try exact I; try discriminate; auto;
    apply andb_prop in H as [Ha Hb]; auto.
Qed.

Lemma orelse_some {A} (x y : option A) (v : A) :
  orelse x y = Some v -> x = Some v \/ y = Some v.
Proof. destruct x; cbn; auto. Qed.

Lemma skipn_cons_next (n : nat) (s s' : text) (c : ascii) :
  c :: s' = skipn n s -> s' = skipn (S n) s.
Proof.
  revert s; induction n as [|n IH]; intros [|x s]; cbn; try discriminate.
  - now intros [= _ ->].
  - intros H; apply IH in H; exact H.
Qed.

Lemma slice_app (n : nat) (s u r : text) :
  skipn n s = u ++ r -> slice n (n + List.length u) s = u.
Proof.
  intros H; unfold slice.
  replace (n + List.length u - n) with (List.length u) by lia.
  rewrite H, firstn_app, Nat.sub_diag, firstn_all; cbn.
  apply app_nil_r.
Qed.

Ltac split6 := split; [|split; [|split; [|split; [|split]]]].

(** Every successful run of the matcher reads a text of the pattern and
    hands a state of the same subject to its continuation. *)
Lemma run_sound (G : text -> Prop) (s : text) (r : re) :
  groups_ok G r ->
  forall (st : mstate) (k : mstate -> option mstate) (res : mstate),
    st_ok G s st ->
    run r st k = Some res ->
    exists u st',
      matches r u /\
      rest st = u ++ rest st' /\
      pos st' = pos st + List.length u /\
      st_ok G s st' /\
      (sets_cap r = true \/ cap st <> None -> cap st' <> None) /\
      k st' = Some res.
Proof.
  induction r as [| p | | a IHa b IHb | a IHa b IHb | g a IHa | a IHa];
    intros Hg st k res Hst Hrun.
  - cbn [run] in Hrun; exists [], st; split6.
    + constructor.
    + reflexivity.
    + cbn; lia.
    + exact Hst.
    + intros [H|H]; [discriminate | exact H].
    + exact Hrun.
  - cbn [run] in Hrun.
    destruct (rest st) as [|c s'] eqn:Er; [discriminate|].
    destruct (p c) eqn:Hp; [|discriminate].
    destruct Hst as [Hrest Hcap].
    exists [c], (MState (S (pos st)) s' (cap st)); cbn [rest pos cap]; split6.
    + now constructor.
    + reflexivity.
    + cbn; lia.
    + split; cbn [rest pos cap]; [|exact Hcap].
      apply skipn_cons_next with c; now rewrite <- Hrest.
    + intros [H|H]; [discriminate | exact H].
    + exact Hrun.
  - cbn [run] in Hrun.
    destruct (pos st =? 0); [|discriminate].
    exists [], st; split6.
    + constructor.
    + reflexivity.
    + cbn; lia.
    + exact Hst.
    + intros [H|H]; [discriminate | exact H].
    + exact Hrun.
  - cbn [run] in Hrun.
    destruct Hg as [Hga Hgb].
    destruct (IHa Hga st _ res Hst Hrun)
      as (u1 & st1 & M1 & R1 & P1 & O1 & C1 & K1).
    destruct (IHb Hgb st1 k res O1 K1)
      as (u2 & st2 & M2 & R2 & P2 & O2 & C2 & K2).
    exists (u1 ++ u2), st2; split6.
    + now constructor.
    + now rewrite R1, R2, app_assoc.
    + rewrite P2, P1, length_app; lia.
    + exact O2.
    + cbn [sets_cap]; intros [H|H].
      * apply orb_prop in H as [H|H]; auto.
      * auto.
    + exact K2.
  - cbn [run] in Hrun.
    destruct Hg as [Hga Hgb].
    apply orelse_some in Hrun as [Hrun|Hrun].
    + destruct (IHa Hga st k res Hst Hrun)
        as (u & st' & M & R & P & O & C & K).
      exists u, st'; split6; auto.
      * now apply MAltL.
      * cbn [sets_cap]; intros [H|H]; [apply andb_prop in H as [H _]|]; auto.
    + destruct (IHb Hgb st k res Hst Hrun)
        as (u & st' & M & R & P & O & C & K).
      exists u, st'; split6; auto.
      * now apply MAltR.
      * cbn [sets_cap]; intros [H|H]; [apply andb_prop in H as [_ H]|]; auto.
  - cbn [groups_ok] in Hg.
    pose (loop :=
      fix loop (fuel : nat) (st0 : mstate) {struct fuel} : option mstate :=
        match fuel with
        | O => k st0
        | S fuel' =>
            let again :=
              run a st0 (fun st' =>
                if pos st0 <? pos st' then loop fuel' st' else None) in
            if g then orelse again (k st0) else orelse (k st0) again
        end).
    change (loop (S (List.length (rest st))) st = Some res) in Hrun.
    revert Hrun; generalize (S (List.length (rest st))); intros fuel.
    revert st Hst; induction fuel as [|fuel IHf]; intros st Hst Hrun.
    + exists [], st; split6.
      * constructor.
      * reflexivity.
      * cbn; lia.
      * exact Hst.
      * intros [H|H]; [discriminate | exact H].
      * exact Hrun.
    + assert (Hcases :
        k st = Some res \/
        run a st (fun st' =>
          if pos st <? pos st' then loop fuel st' else None) = Some res).
      { change (loop (S fuel) st)
          with (if g
                then orelse
                       (run a st (fun st' =>
                          if pos st <? pos st' then loop fuel st' else None))
                       (k st)
                else orelse (k st)
                       (run a st (fun st' =>
                          if pos st <? pos st' then loop fuel st' else None)))
          in Hrun.
        destruct g; apply orelse_some in Hrun as [H|H]; auto. }
      destruct Hcases as [Hk | Hagain].
      * exists [], st; split6.
        -- constructor.
        -- reflexivity.
        -- cbn; lia.
        -- exact Hst.
        -- intros [H|H]; [discriminate | exact H].
        -- exact Hk.
      * destruct (IHa Hg st _ res Hst Hagain)
          as (u1 & st1 & M1 & R1 & P1 & O1 & C1 & K1).
        destruct (pos st <? pos st1); [|discriminate].
        destruct (IHf st1 O1 K1)
          as (u2 & st2 & M2 & R2 & P2 & O2 & C2 & K2).
        exists (u1 ++ u2), st2; split6.
        -- now constructor.
        -- now rewrite R1, R2, app_assoc.
        -- rewrite P2, P1, length_app; lia.
        -- exact O2.
        -- cbn [sets_cap]; intros [H|H]; [discriminate|]; auto.
        -- exact K2.
  - cbn [run] in Hrun.
    destruct Hg as [HG Hga].
    destruct (IHa Hga st _ res Hst Hrun)
      as (u & st' & M & R & P & O & C & K).
    exists u, (MState (pos st') (rest st') (Some (pos st, pos st'))).
    cbn [rest pos cap]; split6.
    + now constructor.
    + exact R.
    + exact P.
    + split; cbn [rest pos cap]; [apply O|].
      rewrite P; destruct Hst as [Hrest _].
      rewrite (slice_app (pos st) s u (rest st')); [now apply HG|].
      now rewrite <- Hrest.
    + intros _; discriminate.
    + exact K.
Qed.

Lemma groups_ok_any (r : re) : groups_ok (fun _ => True) r.
Proof. induction r; cbn; auto. Qed.

(** A successful run from the top, at index [i] of the subject. *)
Lemma run_top_sound (G : text -> Prop) (s : text) (r : re) (i : nat)
  (s' : text) (st : mstate) :
  groups_ok G r ->
  s' = skipn i s ->
  run r (MState i s' None) Some = Some st ->
  exists u,
    matches r u /\
    skipn i s = u ++ skipn (pos st) s /\
    match cap st with
    | Some (a, b) => G (slice a b s)
    | None => sets_cap r = false
    end.
Proof.
  intros Hg Hs Hrun.
  assert (Hst : st_ok G s (MState i s' None)) by (split; [exact Hs | exact I]).
  destruct (run_sound G s r Hg _ _ _ Hst Hrun)
    as (u & st' & M & R & P & [O1 O2] & C & [= ->]).
  cbn [rest pos cap] in *.
  exists u; split; [exact M|]; split.
  - now rewrite <- Hs, R, O1.
  - destruct (cap st) as [[a b]|]; [exact O2|].
    destruct (sets_cap r); [|reflexivity].
    exfalso; apply C; auto.
Qed.

(** A successful search found, in the subject, a text of the pattern;
    when the group took part its text satisfies [G]. *)
Lemma search_from_sound (G : text -> Prop) (s : text) (r : re) (m : rmatch) :
  groups_ok G r ->
  forall (s' : text) (i : nat),
    s' = skipn i s ->
    search_from r i s' = Some m ->
    exists u,
      matches r u /\
      skipn (m_start m) s = u ++ skipn (m_end m) s /\
      match m_group1 m with
      | Some (a, b) => G (slice a b s)
      | None => sets_cap r = false
      end.
Proof.
  intros Hg s'; induction s' as [|c s' IH]; intros i Hs; cbn [search_from];
    destruct (run r (MState i _ None) Some) as [st|] eqn:Hrun;
    try discriminate.
  1, 2: intros [= <-]; cbn [m_start m_end m_group1];
    exact (run_top_sound G s r i _ st Hg Hs Hrun).
  intros H; apply (IH (S i)); [|exact H].
  now apply skipn_cons_next with c.
Qed.

Lemma search_sound (G : text -> Prop) (s : text) (r : re) (m : rmatch) :
  groups_ok G r ->
  search r s = Some m ->
  exists u,
    matches r u /\
    skipn (m_start m) s = u ++ skipn (m_end m) s /\
    match m_group1 m with
    | Some (a, b) => G (slice a b s)
    | None => sets_cap r = false
    end.
Proof.
  intros Hg H; exact (search_from_sound G s r m Hg s 0 eq_refl H).
Qed.

Lemma existsb_skipn (P : ascii -> bool) (n : nat) (s : text) :
  existsb P (skipn n s) = true -> existsb P s = true.
Proof.
  revert s; induction n as [|n IH]; intros [|c s]; cbn; auto.
  intros H; rewrite (IH s H); apply orb_true_r.
Qed.

(** A pattern that must read a character of [P] finds nothing in a text
    without one. *)
Lemma search_needs (P : ascii -> bool) (r : re) (s : text) :
  must_read P r = true -> existsb P s = false -> search r s = None.
Proof.
  intros Hr Hs; destruct (search r s) as [m|] eqn:E; [|reflexivity].
  destruct (search_sound _ s r m (groups_ok_any r) E) as (u & M & R & _).
  pose proof (matches_must_read P r u M Hr) as Hu.
  assert (H : existsb P (skipn (m_start m) s) = true).
  { rewrite R, existsb_app, Hu; reflexivity. }
  apply existsb_skipn in H; congruence.
Qed.

(** The capture of a pattern whose group always takes part. *)
Lemma search_group (G : text -> Prop) (s : text) (r : re) (m : rmatch) :
  groups_ok G r -> sets_cap r = true -> search r s = Some m ->
  G (group1 s m).
Proof.
  intros Hg Hc H.
  destruct (search_sound G s r m Hg H) as (u & _ & _ & Hcap).
  unfold group1; destruct (m_group1 m) as [[a b]|]; [exact Hcap|congruence].
Qed.

Lemma matches_seq_inv (a b : re) (u : text) :
  matches (Seq a b) u ->
  exists u1 u2, u = u1 ++ u2 /\ matches a u1 /\ matches b u2.
Proof. inversion 1; subst; eauto. Qed.

Lemma matches_alt_inv (a b : re) (u : text) :
  matches (Alt a b) u -> matches a u \/ matches b u.
Proof. inversion 1; subst; auto. Qed.

Lemma matches_cls_inv (p : ascii -> bool) (u : text) :
  matches (Cls p) u -> exists c, u = [c] /\ p c = true.
Proof. inversion 1; subst; eauto. Qed.

Lemma matches_eps_inv (u : text) : matches Eps u -> u = [].
Proof. now inversion 1. Qed.

End RegexFacts.

(* ------------------------------------------------------------------ *)
(** ** What the stored fields look like *)
(* ------------------------------------------------------------------ *)

Module FieldShape.
Import PyStr Regex Fields Props RegexSem PyStrFacts FieldFacts RegexFacts.

Lemma is_digit_upper (c : ascii) : is_digit (upper_char c) = is_digit c.
Proof. destruct c as [[] [] [] [] [] [] [] []]; reflexivity. Qed.

Lemma is_space_upper (c : ascii) : is_space (upper_char c) = is_space c.
Proof. destruct c as [[] [] [] [] [] [] [] []]; reflexivity. Qed.

Lemma existsb_upper (P : ascii -> bool) (t : text) :
  (forall c, P (upper_char c) = P c) ->
  existsb P (upper t) = existsb P t.
Proof.
  intros HP; unfold upper; induction t as [|c t IH]; cbn; [reflexivity|].
  now rewrite HP, IH.
Qed.

Lemma find_total_none (ps : list re) (tu : text) :
  (forall p, In p ps -> search p tu = None) -> find_total ps tu = None.
Proof.
  induction ps as [|p ps IH]; intros H; cbn [find_total]; [reflexivity|].
  rewrite (H p (or_introl eq_refl)); apply IH.
  intros q Hq; apply H; now right.
Qed.

Lemma find_date_none (ps : list re) (tu : text) :
  (forall p, In p ps -> search p tu = None) -> find_date ps tu = None.
Proof.
  induction ps as [|p ps IH]; intros H; cbn [find_date]; [reflexivity|].
  rewrite (H p (or_introl eq_refl)); apply IH.
  intros q Hq; apply H; now right.
Qed.

Lemma find_invoice_none (ps : list re) (tu : text) :
  (forall p, In p ps -> search p tu = None) -> find_invoice ps tu = None.
Proof.
  induction ps as [|p ps IH]; intros H; cbn [find_invoice]; [reflexivity|].
  rewrite (H p (or_introl eq_refl)); apply IH.
  intros q Hq; apply H; now right.
Qed.

(** The patterns of a list find nothing in a text without a character
    they all must read. *)
Lemma patterns_need (P : ascii -> bool) (ps : list re) (tu : text) :
  forallb (must_read P) ps = true -> existsb P tu = false ->
  forall p, In p ps -> search p tu = None.
Proof.
  intros Hps Htu p Hp; rewrite forallb_forall in Hps.
  exact (search_needs P p tu (Hps p Hp) Htu).
Qed.

Lemma total_patterns_need_digit :
  forallb (must_read is_digit) total_patterns = true.
Proof. vm_compute; reflexivity. Qed.

Lemma date_patterns_need_digit :
  forallb (must_read is_digit) date_patterns = true.
Proof. vm_compute; reflexivity. Qed.

(** X4.  A text without a digit has neither a total nor a date. *)
Theorem no_digit_no_amount (t : text) (H : existsb is_digit t = false) :
  total (extract_structured_fields t) = None /\
  date (extract_structured_fields t) = None.
Proof.
  cbn [extract_structured_fields total date].
  assert (Hu : existsb is_digit (upper t) = false)
    by now rewrite (existsb_upper is_digit t is_digit_upper).
  split.
  - apply find_total_none.
    exact (patterns_need _ _ _ total_patterns_need_digit Hu).
  - apply find_date_none.
    exact (patterns_need _ _ _ date_patterns_need_digit Hu).
Qed.

Lemma no_digit_no_amount_witness :
  total (extract_structured_fields (s2l "TOTAL: due on receipt")) = None /\
  date (extract_structured_fields (s2l "TOTAL: due on receipt")) = None.
Proof.
  exact (no_digit_no_amount (s2l "TOTAL: due on receipt") eq_refl).
Defined.

Lemma split_on_chars (sep : ascii) (t l : text) (x : ascii) :
  In l (split_on sep t) -> In x l -> In x t.
Proof.
  revert l; induction t as [|c t IH]; intros l; cbn [split_on].
  - intros [<-|[]] [].
  - destruct (Ascii.eqb c sep).
    + intros [<-|H] Hx; [destruct Hx | right; eauto].
    + destruct (split_on sep t) as [|w ws].
      * intros [<-|[]] [<-|[]]; now left.
      * intros [<-|H] Hx.
        -- destruct Hx as [<-|Hx]; [now left | right].
           apply (IH w); [now left | exact Hx].
        -- right; apply (IH l); [now right | exact Hx].
Qed.

(** A blank text has no non-empty line. *)
Lemma nonempty_lines_blank (t : text) :
  non_blank t = false -> nonempty_lines t = [].
Proof.
  intros Ht; unfold nonempty_lines.
  replace (List.filter _ _) with (@nil text); [reflexivity|].
  symmetry.
  assert (H : forall ls,
            (forall l, In l ls -> non_blank l = false) ->
            List.filter (fun l => truthy (strip l)) ls = []).
  { induction ls as [|l ls IH]; intros Hls; cbn; [reflexivity|].
    rewrite truthy_strip, (Hls l (or_introl eq_refl)).
    apply IH; intros l' Hl'; apply Hls; now right. }
  apply H; intros l Hl.
  destruct (non_blank l) eqn:E; [|reflexivity].
  apply existsb_exists in E as (x & Hx & Px).
  assert (Hin : In x t) by exact (split_on_chars newline t l x Hl Hx).
  assert (non_blank t = true)
    by (apply existsb_exists; exists x; auto).
  congruence.
Qed.

Lemma patterns_need_non_space :
  forallb (must_read non_space) total_patterns = true /\
  forallb (must_read non_space) date_patterns = true /\
  forallb (must_read non_space) invoice_patterns = true.
Proof. repeat split; vm_compute; reflexivity. Qed.

Lemma non_space_upper (c : ascii) : non_space (upper_char c) = non_space c.
Proof. unfold non_space; now rewrite is_space_upper. Qed.

Lemma blank_fields (t : text) :
  non_blank t = false ->
  extract_structured_fields t = mkFields None None None None None.
Proof.
  intros H; unfold extract_structured_fields.
  rewrite (nonempty_lines_blank t H); cbn [firstn find_vendor find_title].
  assert (Hu : existsb non_space (upper t) = false)
    by now rewrite (existsb_upper non_space t non_space_upper).
  destruct patterns_need_non_space as (Ht & Hd & Hi).
  rewrite (find_total_none _ _ (patterns_need _ _ _ Ht Hu)).
  rewrite (find_date_none _ _ (patterns_need _ _ _ Hd Hu)).
  rewrite (find_invoice_none _ _ (patterns_need _ _ _ Hi Hu)).
  reflexivity.
Qed.

(** X5.  On a text made of whitespace only, the empty text included,
    no field is set. *)
Theorem blank_text_no_fields (t : text) (H : non_blank t = false) :
  extract_structured_fields t = mkFields None None None None None.
Proof. exact (blank_fields t H). Qed.

Lemma blank_text_no_fields_witness :
  extract_structured_fields [" "; newline; " "]%char
  = mkFields None None None None None.
Proof.
  exact (blank_text_no_fields [" "; newline; " "]%char eq_refl).
Defined.

Lemma find_date_shape (G : text -> Prop) (ps : list re) (tu : text) :
  (forall p, In p ps -> groups_ok G p /\ sets_cap p = true) ->
  when_set (find_date ps tu) G.
Proof.
  induction ps as [|p ps IH]; intros H; cbn [find_date]; [exact I|].
  destruct (search p tu) as [m|] eqn:E.
  - destruct (H p (or_introl eq_refl)) as [Hg Hc].
    exact (search_group G tu p m Hg Hc E).
  - apply IH; intros q Hq; apply H; now right.
Qed.

Lemma find_invoice_shape (G : text -> Prop) (ps : list re) (tu : text) :
  (forall p, In p ps -> groups_ok G p /\ sets_cap p = true) ->
  when_set (find_invoice ps tu) G.
Proof.
  induction ps as [|p ps IH]; intros H; cbn [find_invoice]; [exact I|].
  assert (Hps : forall q, In q ps -> groups_ok G q /\ sets_cap q = true)
    by (intros q Hq; apply H; now right).
  destruct (search p tu) as [m|] eqn:E; [|exact (IH Hps)].
  destruct (2 <? _); [|exact (IH Hps)].
  destruct (H p (or_introl eq_refl)) as [Hg Hc].
  exact (search_group G tu p m Hg Hc E).
Qed.

Lemma date_patterns_groups (p : re) :
  In p date_patterns ->
  groups_ok (fun v => exists q, In q date_patterns /\ matches q v) p /\
  sets_cap p = true.
Proof.
  unfold date_patterns at 1.
  intros [<-|[<-|[<-|[<-|[]]]]];
    (split; [|reflexivity]);
    (split; [|apply no_group_groups_ok; reflexivity]);
    intros u Hu;
    (eexists; split; [|apply MGrp; exact Hu]);
    unfold date_patterns; cbn [In]; auto 6.
Qed.

Lemma date_patterns_checks :
  forallb (fun p => (6 <=? min_len p) && only_reads date_char p)
          date_patterns = true.
Proof. vm_compute; reflexivity. Qed.

(** X6.  For every text, a date that is set reads as one of the four
    date patterns; it has at least six characters, all of them digits,
    capital letters, [/], [-], [,] or whitespace. *)
Theorem date_shape (t : text) :
  when_set (date (extract_structured_fields t))
    (fun v => (exists p, In p date_patterns /\ matches p v) /\
              6 <= List.length v /\
              forallb date_char v = true).
Proof.
  cbn [extract_structured_fields date].
  pose proof (find_date_shape _ date_patterns (upper t) date_patterns_groups)
    as H.
  destruct (find_date date_patterns (upper t)) as [v|]; cbn [when_set] in *;
    [|exact I].
  split; [exact H|].
  destruct H as (p & Hp & M).
  pose proof date_patterns_checks as C.
  rewrite forallb_forall in C; specialize (C p Hp).
  apply andb_prop in C as [C1 C2]; apply Nat.leb_le in C1.
  split.
  - pose proof (matches_min_len p v M); lia.
  - exact (matches_only_reads date_char p v M C2).
Qed.

Lemma numbered_groups (key : re) :
  no_group key = true ->
  groups_ok (matches invoice_token) (numbered key) /\
  sets_cap (numbered key) = true.
Proof.
  intros Hk; split.
  - unfold numbered, seqs; cbn [fold_right groups_ok].
    split; [now apply no_group_groups_ok|].
    split; [exact I|].
    split; [|exact I].
    split; [intros u Hu; exact Hu | cbn; tauto].
  - unfold numbered, seqs; cbn [fold_right sets_cap].
    now rewrite !orb_true_r.
Qed.

Lemma invoice_patterns_groups (p : re) :
  In p invoice_patterns ->
  groups_ok (matches invoice_token) p /\ sets_cap p = true.
Proof.
  unfold invoice_patterns.
  intros [<-|[<-|[<-|[<-|[<-|[<-|[]]]]]]]; apply numbered_groups; reflexivity.
Qed.

Lemma word_run (g : bool) (u : text) :
  matches (Star g w) u -> forallb is_word u = true.
Proof.
  intros M; apply (matches_only_reads is_word _ u M).
  vm_compute; reflexivity.
Qed.

(** What [\w+[-/]?\w*] reads. *)
Lemma invoice_token_inv (v : text) :
  matches invoice_token v ->
  exists u1 sep u2,
    v = u1 ++ sep ++ u2 /\
    u1 <> [] /\
    forallb is_word u1 = true /\
    forallb is_word u2 = true /\
    (sep = [] \/ sep = ["-"%char] \/ sep = ["/"%char]).
Proof.
  unfold invoice_token, seqs, plus, opt, star; cbn [fold_right]; intros M.
  apply matches_seq_inv in M as (u1 & r1 & -> & M1 & M).
  apply matches_seq_inv in M as (sep & r2 & -> & Ms & M).
  apply matches_seq_inv in M as (u2 & e & -> & M2 & Me).
  apply matches_eps_inv in Me as ->.
  apply matches_seq_inv in M1 as (c1 & us & -> & Mc & Mu).
  apply matches_cls_inv in Mc as (c & -> & Hc).
  exists ([c] ++ us), sep, u2; rewrite app_nil_r.
  split; [reflexivity|].
  split; [discriminate|].
  split; [cbn; rewrite Hc; exact (word_run _ _ Mu)|].
  split; [exact (word_run _ _ M2)|].
  apply matches_alt_inv in Ms as [Ms|Ms].
  - apply matches_cls_inv in Ms as (x & -> & Hx).
    unfold one_of in Hx; cbn in Hx.
    apply orb_prop in Hx as [Hx|Hx].
    + apply Ascii.eqb_eq in Hx as ->; auto.
    + rewrite orb_false_r in Hx; apply Ascii.eqb_eq in Hx as ->; auto.
  - apply matches_eps_inv in Ms as ->; auto.
Qed.

(** X7.  For every text, an invoice number that is set is a run of
    letters, digits and underscores, optionally followed by one [-] or [/]
    and a further such run: it holds at most one separator and no
    whitespace. *)
Theorem invoice_number_shape (t : text) :
  when_set (invoice_number (extract_structured_fields t))
    (fun v => exists u1 sep u2,
       v = u1 ++ sep ++ u2 /\
       u1 <> [] /\
       forallb is_word u1 = true /\
       forallb is_word u2 = true /\
       (sep = [] \/ sep = ["-"%char] \/ sep = ["/"%char])).
Proof.
  cbn [extract_structured_fields invoice_number].
  pose proof (find_invoice_shape _ invoice_patterns (upper t)
                invoice_patterns_groups) as H.
  destruct (find_invoice invoice_patterns (upper t)) as [v|];
    cbn [when_set] in *; [|exact I].
  exact (invoice_token_inv v H).
Qed.

End FieldShape.

(* ------------------------------------------------------------------ *)
(** ** What the field extraction does not look at *)
(* ------------------------------------------------------------------ *)

Module FieldInvariance.
Import PyStr Regex Fields Props PyStrFacts FieldFacts FieldShape Samples.

Lemma upper_char_idem (c : ascii) : upper_char (upper_char c) = upper_char c.
Proof. destruct c as [[] [] [] [] [] [] [] []]; reflexivity. Qed.

Lemma upper_idem (s : text) : upper (upper s) = upper s.
Proof.
  unfold upper; rewrite map_map; apply map_ext; exact upper_char_idem.
Qed.

Lemma newline_upper (c : ascii) :
  Ascii.eqb (upper_char c) newline = Ascii.eqb c newline.
Proof. destruct c as [[] [] [] [] [] [] [] []]; reflexivity. Qed.

Lemma lstrip_upper (s : text) : lstrip (upper s) = upper (lstrip s).
Proof.
  unfold upper; induction s as [|c s IH]; cbn [map lstrip]; [reflexivity|].
  rewrite is_space_upper; destruct (is_space c); [exact IH | reflexivity].
Qed.

Lemma upper_rev (s : text) : upper (rev s) = rev (upper s).
Proof. unfold upper; apply map_rev. Qed.

Lemma strip_upper (s : text) : strip (upper s) = upper (strip s).
Proof.
  unfold strip, rstrip.
  now rewrite lstrip_upper, <- upper_rev, lstrip_upper, <- upper_rev.
Qed.

Lemma truthy_upper (s : text) : truthy (upper s) = truthy s.
Proof. now destruct s. Qed.

Lemma split_on_upper (s : text) :
  split_on newline (upper s) = map upper (split_on newline s).
Proof.
  induction s as [|c s IH]; [reflexivity|].
  change (upper (c :: s)) with (upper_char c :: upper s).
  cbn [split_on]; rewrite newline_upper, IH.
  destruct (Ascii.eqb c newline); [reflexivity|].
  now destruct (split_on newline s).
Qed.

Lemma nonempty_lines_upper (t : text) :
  nonempty_lines (upper t) = map upper (nonempty_lines t).
Proof.
  unfold nonempty_lines; rewrite split_on_upper.
  induction (split_on newline t) as [|l ls IH]; [reflexivity|].
  cbn [map List.filter]; rewrite strip_upper, truthy_upper.
  destruct (truthy (strip l)); cbn [map]; now rewrite IH, ?strip_upper.
Qed.

Lemma find_vendor_upper (ls : list text) :
  find_vendor (map upper ls) = find_vendor ls.
Proof.
  induction ls as [|l ls IH]; [reflexivity|].
  cbn [map find_vendor]; now rewrite upper_idem, IH.
Qed.

Lemma find_title_upper (ls : list text) :
  find_title (map upper ls) = option_map upper (find_title ls).
Proof.
  destruct ls as [|l0 ls]; [reflexivity|].
  cbn [map find_title]; rewrite upper_idem, strip_upper.
  destruct (has_keyword (upper l0)); [reflexivity|].
  destruct ls as [|l1 ls]; [reflexivity|].
  cbn [map]; rewrite upper_idem, strip_upper.
  now destruct (has_keyword (upper l1)).
Qed.

(** X8.  Matching does not depend on the casing of the input: putting a
    text in upper case leaves the total, the date, the invoice number and
    the vendor as they are, and puts the title in upper case. *)
Theorem extraction_is_case_insensitive (t : text) :
  let fields := extract_structured_fields t in
  extract_structured_fields (upper t)
  = mkFields (total fields) (option_map upper (title fields)) (date fields)
             (invoice_number fields) (vendor fields).
Proof.
  unfold extract_structured_fields; cbn [total title date invoice_number vendor].
  rewrite upper_idem, nonempty_lines_upper, find_title_upper.
  now rewrite firstn_map, find_vendor_upper.
Qed.

Lemma split_on_nonempty (sep : ascii) (s : text) : split_on sep s <> [].
Proof.
  destruct s as [|c s]; cbn [split_on]; [discriminate|].
  destruct (Ascii.eqb c sep); [discriminate|].
  destruct (split_on sep s); discriminate.
Qed.

(** Splitting distributes over a separator. *)
Lemma split_on_app (sep : ascii) (a b : text) :
  split_on sep (a ++ sep :: b) = split_on sep a ++ split_on sep b.
Proof.
  induction a as [|c a IH]; cbn [app split_on].
  - now rewrite Ascii.eqb_refl.
  - rewrite IH; destruct (Ascii.eqb c sep); [reflexivity|].
    pose proof (split_on_nonempty sep a) as Hne.
    now destruct (split_on sep a).
Qed.

Lemma nonempty_lines_app (a b : text) :
  nonempty_lines (a ++ newline :: b) = nonempty_lines a ++ nonempty_lines b.
Proof.
  unfold nonempty_lines; now rewrite split_on_app, List.filter_app, map_app.
Qed.

Lemma find_title_app (l1 l2 : list text) :
  2 <= List.length l1 -> find_title (l1 ++ l2) = find_title l1.
Proof.
  destruct l1 as [|x [|y l1]]; cbn [List.length]; try lia.
  reflexivity.
Qed.

(** X9.  The vendor and the title are read off the top of the text: once
    a text has five non-empty lines, whatever lines are added after it
    change neither of them. *)
Theorem later_lines_ignored (t more : text)
  (H : 5 <= List.length (nonempty_lines t)) :
  vendor (extract_structured_fields (t ++ newline :: more))
    = vendor (extract_structured_fields t) /\
  title (extract_structured_fields (t ++ newline :: more))
    = title (extract_structured_fields t).
Proof.
  cbn [extract_structured_fields vendor title].
  rewrite nonempty_lines_app; split.
  - rewrite firstn_app.
    replace (5 - List.length (nonempty_lines t)) with 0 by lia.
    cbn [firstn]; now rewrite app_nil_r.
  - apply find_title_app; lia.
Qed.

Lemma later_lines_ignored_witness :
  let t := lines_text ["Statement"; "a"; "b"; "c"; "d"]%string in
  let more := s2l "VENDOR: Initech" in
  vendor (extract_structured_fields (t ++ newline :: more)) = None /\
  title (extract_structured_fields (t ++ newline :: more))
    = Some (s2l "Statement").
Proof.
  cbv zeta.
  destruct (later_lines_ignored
              (lines_text ["Statement"; "a"; "b"; "c"; "d"]%string)
              (s2l "VENDOR: Initech")) as [Hv Ht].
  - vm_compute; lia.
  - rewrite Hv, Ht; split; vm_compute; reflexivity.
Defined.

End FieldInvariance.

(* ------------------------------------------------------------------ *)
(** ** Further properties of the pipelines *)
(* ------------------------------------------------------------------ *)

Module PipelineProps.
Import PyStr Effects Ocr Props PyStrFacts OcrFacts Samples.

Lemma sumZ_positive (cs : list Z) :
  Forall (fun c => (0 < c)%Z) cs -> cs <> [] -> (0 < sumZ cs)%Z.
Proof.
  induction 1 as [|c cs Hc Hcs IH]; [congruence|intros _].
  unfold sumZ in *; cbn [fold_right].
  destruct cs as [|d cs]; [cbn; lia|].
  assert (0 < fold_right Z.add 0 (d :: cs))%Z by (apply IH; discriminate).
  lia.
Qed.

Lemma sumZ_bounded (hi : Z) (cs : list Z) :
  Forall (fun c => (c <= hi)%Z) cs ->
  (sumZ cs <= hi * Z.of_nat (List.length cs))%Z.
Proof.
  induction 1 as [|c cs Hc Hcs IH]; unfold sumZ in *; cbn [fold_right];
    [cbn; lia|].
  cbn [List.length]; lia.
Qed.

Lemma confidences_positive (conf : list Z) :
  Forall (fun c => (0 < c)%Z) (confidences conf).
Proof.
  unfold confidences; apply List.Forall_forall; intros c Hc.
  apply filter_In in Hc as [_ Hc]; now apply Z.ltb_lt.
Qed.

Lemma confidences_bounded (hi : Z) (conf : list Z) :
  Forall (fun c => (c <= hi)%Z) conf ->
  Forall (fun c => (c <= hi)%Z) (confidences conf).
Proof.
  unfold confidences; rewrite !List.Forall_forall; intros H c Hc.
  apply filter_In in Hc as [Hc _]; auto.
Qed.

Lemma some_positive (conf : list Z) :
  existsb positive_conf conf = true <-> confidences conf <> [].
Proof.
  unfold confidences; change (fun c => (0 <? c)%Z) with positive_conf.
  induction conf as [|c conf IH]; cbn; [split; congruence|].
  destruct (positive_conf c); cbn; [split; [discriminate|reflexivity]|].
  exact IH.
Qed.

(** X10.  The confidence of the image pipeline is never negative, is
    positive exactly when some token confidence is, and does not exceed a
    bound that no token confidence exceeds. *)
Theorem avg_confidence_bounds (conf : list Z) (hi : Z)
  (Hhi : Forall (fun c => (c <= hi)%Z) conf) :
  (0 <= avg_confidence conf)%Q /\
  ((0 < avg_confidence conf)%Q <-> existsb positive_conf conf = true) /\
  (existsb positive_conf conf = true -> (avg_confidence conf <= inject_Z hi)%Q).
Proof.
  unfold avg_confidence.
  pose proof (confidences_positive conf) as Hpos.
  pose proof (confidences_bounded hi conf Hhi) as Hle.
  pose proof (some_positive conf) as Hex.
  destruct (confidences conf) as [|c cs] eqn:E.
  - split; [apply Qle_refl|]; split.
    + split; [intros H; now apply Qlt_irrefl in H|].
      intros H; apply Hex in H; congruence.
    + intros H; apply Hex in H; congruence.
  - assert (Hs : (0 < sumZ (c :: cs))%Z)
      by (apply sumZ_positive; [exact Hpos | discriminate]).
    pose proof (sumZ_bounded hi (c :: cs) Hle) as Hb.
    set (n := List.length (c :: cs)) in *.
    assert (Hn : Z.pos (Pos.of_nat n) = Z.of_nat n).
    { unfold n; cbn [List.length]; rewrite <- Pos.of_nat_succ; lia. }
    split; [unfold Qle; cbn [Qnum Qden]; lia|]; split.
    + split; [intros _; apply Hex; discriminate|].
      intros _; unfold Qlt; cbn [Qnum Qden]; lia.
    + intros _; unfold Qle, inject_Z; cbn [Qnum Qden]; rewrite Hn; lia.
Qed.

Lemma avg_confidence_bounds_witness :
  (0 <= avg_confidence [96; 0; 91; -1; 89]%Z)%Q /\
  ((0 < avg_confidence [96; 0; 91; -1; 89]%Z)%Q <->
   existsb positive_conf [96; 0; 91; -1; 89]%Z = true) /\
  (existsb positive_conf [96; 0; 91; -1; 89]%Z = true ->
   (avg_confidence [96; 0; 91; -1; 89]%Z <= inject_Z 100)%Q).
Proof.
  apply (avg_confidence_bounds [96; 0; 91; -1; 89]%Z 100%Z).
  repeat constructor; lia.
Defined.

(** Whitespace ends a word. *)
Lemma split_ws_aux_space (a : text) :
  forall (cur : text) (c : ascii) (r : text),
    is_space c = true ->
    List.length (split_ws_aux cur (a ++ c :: r))
    = List.length (split_ws_aux cur a) + List.length (split_ws_aux [] r).
Proof.
  induction a as [|x a IH]; intros cur c r Hc.
  - cbn [app split_ws_aux]; rewrite Hc.
    destruct cur; cbn [List.length]; lia.
  - cbn [app split_ws_aux].
    destruct (is_space x).
    + destruct cur; cbn [List.length]; rewrite (IH [] c r Hc); lia.
    + apply IH; exact Hc.
Qed.

(** The words of a join are the words of its parts. *)
Lemma word_count_join (parts : list text) :
  word_count_of (join double_newline parts) = words_of parts.
Proof.
  unfold words_of, word_count_of, split_ws, sumZ, double_newline.
  induction parts as [|p ps IH]; [reflexivity|].
  destruct ps as [|q ps].
  - cbn [join map fold_right]; lia.
  - change (join [newline; newline] (p :: q :: ps))
      with (p ++ newline :: newline :: join [newline; newline] (q :: ps)).
    rewrite (split_ws_aux_space p [] newline _ eq_refl).
    cbn [split_ws_aux is_space]; change (is_space newline) with true.
    cbn iota; rewrite Nat2Z.inj_add, IH.
    cbn [map fold_right]; lia.
Qed.

Lemma pdf_run_open_fail (pdf : pdf_file) (msg : string) (w : world) :
  pdf_doc pdf = inl msg ->
  extract_text_from_pdf pdf w
  = (World (live w) (log w ++ [EvPdfOpen]),
     inl (HTTPException 500 (PdfProcessingFailed (EngineError msg)))).
Proof.
  intros H; unfold extract_text_from_pdf, try_except, bind, emit.
  now rewrite H.
Qed.

Lemma first_failure_bound (pages : list page) :
  forall (i : nat) (msg : string),
    first_failure pages = Some (i, msg) -> i < List.length pages.
Proof.
  induction pages as [|p pages IH]; intros i msg; cbn; [discriminate|].
  destruct (img_ocr (page_image p)); [intros [= <- _]; lia|].
  destruct (first_failure pages) as [[j m]|]; [|discriminate].
  intros [= <- _]; specialize (IH j m eq_refl); lia.
Qed.

Lemma visited_bound (pages : list page) : visited pages <= List.length pages.
Proof.
  unfold visited; destruct (first_failure pages) as [[i m]|] eqn:E; [|lia].
  apply first_failure_bound in E; lia.
Qed.

Lemma rasterized_bound (pdf : pdf_file) : rasterized pdf <= 5.
Proof.
  unfold rasterized; destruct (pdf_doc pdf) as [msg|doc]; [lia|].
  destruct (existsb _ _); [lia|].
  etransitivity; [apply visited_bound|].
  rewrite length_firstn; lia.
Qed.

(** Every run of the PDF pipeline. *)
Lemma pdf_run (pdf : pdf_file) (w : world) :
  pages_free w = true ->
  extract_text_from_pdf pdf w
  = (World (live w)
       (log w ++ EvPdfOpen :: flat_map page_steps (seq 0 (rasterized pdf))),
     inl (HTTPException 500 (PdfProcessingFailed (pdf_failure pdf)))).
Proof.
  intros Hw; unfold rasterized, pdf_failure.
  destruct (pdf_doc pdf) as [msg|doc] eqn:Hdoc.
  - now rewrite (pdf_run_open_fail pdf msg w Hdoc).
  - destruct (existsb non_blank (map page_text doc)) eqn:Htext.
    + now rewrite (pdf_run_digital pdf doc w Hdoc Htext).
    + rewrite (pdf_run_fallback pdf doc w Hdoc Htext Hw).
      now destruct (first_failure _) as [[i msg]|].
Qed.

(** X11.  The PDF pipeline never returns.  Started with no page image
    lying around, it raises status 500 on every file: with the engine's
    message when the document does not open, with the failure of the first
    page OCR fails on in the fallback, and otherwise with the refusal of
    the closed document to give its length; before that it has rasterized
    at most five pages and removed each page image. *)
Theorem pdf_pipeline_always_raises (pdf : pdf_file) (w : world)
  (Hw : pages_free w = true) :
  extract_text_from_pdf pdf w
  = (World (live w)
       (log w ++ EvPdfOpen :: flat_map page_steps (seq 0 (rasterized pdf))),
     inl (HTTPException 500 (PdfProcessingFailed (pdf_failure pdf)))) /\
  rasterized pdf <= 5.
Proof.
  split; [exact (pdf_run pdf w Hw) | apply rasterized_bound].
Qed.

Lemma pdf_pipeline_always_raises_witness :
  extract_text_from_pdf scanned_pdf empty_world
  = (World [] (EvPdfOpen :: flat_map page_steps [0; 1; 2; 3; 4]),
     inl (HTTPException 500
            (PdfProcessingFailed (EngineError "document closed")))) /\
  5 <= 5.
Proof.
  exact (pdf_pipeline_always_raises scanned_pdf empty_world eq_refl).
Defined.

End PipelineProps.

(* ------------------------------------------------------------------ *)
(** ** Further properties of the handler *)
(* ------------------------------------------------------------------ *)

Module ApiProps.
Import PyStr Effects Ocr Fields Api Props PyStrFacts OcrFacts ApiFacts.
Import FieldProps PipelineProps Samples.

Lemma process_image (eng : Engines) (env : Env) (file : UploadFile)
  (w : world) :
  up_content_type file <> Some "application/pdf"%string ->
  process eng env file w
  = match extract_text_from_image TmpUpload (as_image eng (up_content file)) w
    with
    | (w', inl e) => (w', inl e)
    | (w', inr (t, c, md)) => (w', inr (build_response env file t c md))
    end.
Proof.
  intros H; unfold process, bind.
  rewrite bool_decide_eq_false_2 by exact H.
  destruct (extract_text_from_image _ _ w) as [w' [e|[[t c] md]]]; reflexivity.
Qed.

(** The files and the steps of any run of the PDF pipeline. *)
Lemma pdf_run_world (pdf : pdf_file) (w : world) :
  pages_free w = true ->
  exists k,
    k <= 5 /\
    fst (extract_text_from_pdf pdf w)
    = World (live w) (log w ++ EvPdfOpen :: flat_map page_steps (seq 0 k)).
Proof.
  intros Hw; exists (rasterized pdf); split; [apply rasterized_bound|].
  now rewrite (pdf_run pdf w Hw).
Qed.

Lemma image_run_world (path : tmp_file) (img : image_file) (w : world) :
  fst (extract_text_from_image path img w)
  = World (live w) (log w ++ [EvOcr path]).
Proof.
  destruct (img_ocr img) as [msg|data] eqn:E.
  - now rewrite (image_run_fail path img msg w E).
  - now rewrite (image_run_ok path img data w E).
Qed.

(** Processing leaves the temporary files as it found them. *)
Lemma process_live (eng : Engines) (env : Env) (file : UploadFile)
  (w : world) :
  pages_free w = true -> live (fst (process eng env file w)) = live w.
Proof.
  intros Hw.
  destruct (decide (up_content_type file = Some "application/pdf"%string))
    as [Hct|Hct].
  - rewrite (process_pdf eng env file w Hct).
    destruct (pdf_run_world (as_pdf eng (up_content file)) w Hw)
      as (k & _ & Hk).
    destruct (extract_text_from_pdf _ w) as [w' [e|[[t c] md]]];
      cbn [fst] in *; now subst w'.
  - rewrite (process_image eng env file w Hct).
    pose proof (image_run_world TmpUpload (as_image eng (up_content file)) w)
      as Hk.
    destruct (extract_text_from_image _ _ w) as [w' [e|[[t c] md]]];
      cbn [fst] in *; now subst w'.
Qed.

(** Every request that passes validation stores the upload, processes it
    and removes it. *)
Lemma accepted_run (eng : Engines) (env : Env) (file : UploadFile) :
  rejected env file = false ->
  exists w2 res,
    process eng env file stored = (w2, res) /\
    live w2 = [TmpUpload] /\
    extract_text eng env file empty_world
    = (World [] (log w2 ++ [EvUnlink TmpUpload]),
       match res with
       | inl e => inl (reraise e)
       | inr resp => inr resp
       end).
Proof.
  intros Hr.
  pose proof (process_live eng env file stored eq_refl) as Hl.
  destruct (process eng env file stored) as [w2 res] eqn:Hp.
  exists w2, res; cbn [fst] in Hl.
  split; [reflexivity|]; split; [exact Hl|].
  exact (extract_text_accepted eng env file w2 res Hr Hp Hl).
Qed.









(** A request that fails validation raises 400 or 413. *)
Lemma rejected_raises (eng : Engines) (env : Env) (file : UploadFile) :
  rejected env file = true ->
  exists c d,
    snd (extract_text eng env file empty_world) = inl (HTTPException c d) /\
    (c = 400 \/ c = 413).
Proof.
  unfold rejected; intros H.
  destruct (declared_too_large env file) eqn:H1.
  - unfold extract_text; rewrite H1; cbn; eauto.
  - destruct (negb (allowed (up_content_type file))) eqn:H2.
    + unfold extract_text; rewrite H1, H2; cbn; eauto.
    + cbn [orb] in H.
      rewrite (extract_text_too_large_once_read eng env file H1 H2 H).
      cbn; eauto.
Qed.


Lemma image_success_inv (path : tmp_file) (img : image_file) (w w' : world)
  (t : text) (c : Q) (md : gmap string pyval) :
  extract_text_from_image path img w = (w', inr (t, c, md)) ->
  exists data,
    img_ocr img = inr data /\ t = ocr_text data /\
    c = avg_confidence (ocr_conf data) /\ md = image_metadata img t.
Proof.
  destruct (img_ocr img) as [msg|data] eqn:E.
  - rewrite (image_run_fail path img msg w E); discriminate.
  - rewrite (image_run_ok path img data w E).
    intros [= _ <- <- <-]; now exists data.
Qed.

(** A response body comes out of a request that passed validation and
    whose processing returned. *)
Lemma ok_body_inv (eng : Engines) (env : Env) (file : UploadFile)
  (r : OCRResponse) :
  body (snd (post_ocr eng env file)) = OcrBody r ->
  rejected env file = false /\
  exists w2, process eng env file stored = (w2, inr r).
Proof.
  unfold post_ocr; intros H.
  destruct (rejected env file) eqn:Hr.
  - destruct (rejected_raises eng env file Hr) as (c & d & E & Hc).
    destruct (extract_text eng env file empty_world) as [w res].
    cbn [snd] in *; subst res.
    destruct Hc as [-> | ->]; discriminate.
  - split; [reflexivity|].
    destruct (accepted_run eng env file Hr) as (w2 & res & Hp & _ & E).
    rewrite E in H; exists w2.
    destruct res as [e|resp].
    + destruct (process_raises_500 _ _ _ _ _ _ Hp) as [d ->]; discriminate.
    + cbn in H; now injection H as ->.
Qed.

Lemma in_firstn {A} (n : nat) (l : list A) (x : A) :
  In x (firstn n l) -> In x l.
Proof.
  revert l; induction n as [|n IH]; intros [|y l]; cbn; try tauto.
  intros [->|H]; [now left | right; auto].
Qed.

(** X17.  In every response with a body, the metadata repeat the file
    name and the content type of the upload, the file size is the length of
    the payload read, the parsed fields are those of the text returned, and
    the detected lines are the first non-empty lines of that text, at most
    ten, each stripped and not empty. *)
Theorem response_describes_upload (eng : Engines) (env : Env)
  (file : UploadFile) (r : OCRResponse)
  (H : body (snd (post_ocr eng env file)) = OcrBody r) :
  original_filename (metadata r) = up_filename file /\
  content_type (metadata r) = up_content_type file /\
  file_size (metadata r) = Some (content_len file) /\
  file_id (metadata r) = Some (uuid4 env) /\
  parsed_fields r = extract_structured_fields (extracted_text r) /\
  exists ls,
    detected_lines (metadata r) = Some ls /\
    ls = firstn 10 (nonempty_lines (extracted_text r)) /\
    List.length ls <= 10 /\
    Forall (fun l => strip l = l /\ l <> []) ls.
Proof.
  destruct (ok_body_inv eng env file r H) as (_ & w2 & Hp).
  assert (Hb : exists t c md,
             r = build_response env file t c md /\
             get_lines md "detected_lines" = Some (firstn 10 (nonempty_lines t))).
  { destruct (decide (up_content_type file = Some "application/pdf"%string))
      as [Hct|Hct].
    - rewrite (process_pdf eng env file stored Hct) in Hp.
      rewrite (pdf_run _ stored eq_refl) in Hp; discriminate.
    - rewrite (process_image eng env file stored Hct) in Hp.
      destruct (extract_text_from_image _ _ stored)
        as [w' [e|[[t c] md]]] eqn:E; [discriminate|].
      injection Hp as _ <-.
      destruct (image_success_inv _ _ _ _ _ _ _ E) as (data & _ & _ & _ & ->).
      exists t, c; eexists; split; reflexivity. }
  destruct Hb as (t & c & md & -> & Hl).
  cbn [build_response metadata original_filename content_type file_size
       file_id parsed_fields extracted_text detected_lines].
  repeat (split; [reflexivity|]).
  exists (firstn 10 (nonempty_lines t)); split; [exact Hl|].
  split; [reflexivity|]; split; [apply firstn_le_length|].
  apply List.Forall_forall; intros l Hl'.
  apply in_firstn in Hl'.
  destruct (nonempty_lines_stripped t l Hl') as [E T].
  split; [exact E | intros ->; discriminate].
Qed.

Lemma response_describes_upload_witness :
  exists r,
    body (snd (post_ocr (engines_for scan digital_pdf) (env_with_limit 1024)
                        (upload "image/png" None 16))) = OcrBody r /\
    file_size (metadata r) = Some 16%Z /\
    detected_lines (metadata r) = Some [s2l "Paid in full"].
Proof.
  eexists; split; [vm_compute; reflexivity|].
  match goal with
  | |- file_size (metadata ?r) = _ /\ _ =>
      destruct (response_describes_upload (engines_for scan digital_pdf)
                  (env_with_limit 1024) (upload "image/png" None 16) r
                  eq_refl)
        as (_ & _ & Hs & _ & _ & ls & Hl & -> & _)
  end.
  split; [exact Hs | exact Hl].
Defined.





End ApiProps.
